(** * Vision LQA Pro: the analysis / verification / sanitization pipeline

    A shallow embedding of
      - [src/services/llmService.ts]   (client pipeline),
      - [src/functions/src/index.ts]   (server twin),
      - the scene classifier of the skill bank ([detectSceneType]),
    followed by the properties stated about them.

    Conventions.
      - A JS string is a [string] holding its UTF-8 bytes; template
        literals are concatenations.
      - An optional JSON field is an [option]; JS truthiness of such a
        field is spelled out by [truthy].
      - A JSON number is a rational [Q]; the code only stores and copies
        scores, it never computes with them.
      - In-place mutation of the report is explicit state passing: a
        mutating function returns the report it leaves behind. *)

From Stdlib Require Import QArith Ascii String DecimalString DecimalN.
From stdpp Require Import gmap strings list.

Local Open Scope string_scope.
Local Open Scope list_scope.

(** ** JS strings *)

Module Js.

(** [!s] for a string: only the empty string is falsy. *)
Definition nonEmpty (s : string) : bool :=
  match s with
  | EmptyString => false
  | String _ _ => true
  end.

(** Truthiness of an optional string field ([undefined], [null] and the
    empty string are falsy). *)
Definition truthy (o : option string) : bool :=
  match o with
  | Some s => nonEmpty s
  | None => false
  end.

(** [o || d] on an optional string. *)
Definition orElse (o : option string) (d : string) : string :=
  match o with
  | Some s => if nonEmpty s then s else d
  | None => d
  end.

(** [p] is a prefix of [s]: returns what follows it. *)
Fixpoint dropPrefix (p s : string) : option string :=
  match p with
  | EmptyString => Some s
  | String a p' =>
      match s with
      | EmptyString => None
      | String b s' => if Ascii.eqb a b then dropPrefix p' s' else None
      end
  end.

Definition startsWith (s p : string) : bool :=
  match dropPrefix p s with
  | Some _ => true
  | None => false
  end.

(** [s.endsWith(p)] *)
Fixpoint endsWith (s p : string) : bool :=
  String.eqb s p ||
  match s with
  | EmptyString => false
  | String _ s' => endsWith s' p
  end.

(** [s.includes(k)]: [k] occurs somewhere in [s]. *)
Fixpoint includes (s k : string) : bool :=
  startsWith s k ||
  match s with
  | EmptyString => false
  | String _ s' => includes s' k
  end.

End Js.

(** ** The regular expression [/\[ID:TERM-\d+\]/g] *)

Module TermTag.

Definition isDigit (c : ascii) : bool :=
  let n := nat_of_ascii c in (48 <=? n)%nat && (n <=? 57)%nat.

(** Greedy [\d*]: the longest run of digits and what follows it. *)
Fixpoint spanDigits (s : string) : string * string :=
  match s with
  | EmptyString => (EmptyString, EmptyString)
  | String c s' =>
      if isDigit c
      then let '(ds, rest) := spanDigits s' in (String c ds, rest)
      else (EmptyString, s)
  end.

(** One match attempt anchored at the start of [s]: the matched text and
    the remainder.  After the greedy digit run the next character is not
    a digit, so backtracking into the run can never find the ["]"]. *)
Definition matchAt (s : string) : option (string * string) :=
  match Js.dropPrefix "[ID:TERM-" s with
  | None => None
  | Some r =>
      match spanDigits r with
      | (String d ds, String c rest) =>
          if Ascii.eqb c "]"%char
          then Some ("[ID:TERM-" +:+ String d ds +:+ "]", rest)
          else None
      | _ => None
      end
  end.

(** The global scan: try at the current position, resume after a match,
    otherwise move one character on.  [fuel] bounds the number of
    positions; [String.length s] is always enough. *)
Fixpoint scan (fuel : nat) (s : string) : list string :=
  match fuel with
  | O => []
  | S fuel' =>
      match matchAt s with
      | Some (m, rest) => m :: scan fuel' rest
      | None =>
          match s with
          | EmptyString => []
          | String _ s' => scan fuel' s'
          end
      end
  end.

(** [glossaryText.match(/\[ID:TERM-\d+\]/g)]: [null] when nothing
    matches, the array of matched texts otherwise. *)
Definition matchAll (s : string) : option (list string) :=
  match scan (String.length s) s with
  | [] => None
  | ms => Some ms
  end.

End TermTag.

(** ** Data model ([types.ts], as used by the pipeline) *)

(** [issueCategory] and [severity] are strings at run time: the response
    schema describes the allowed values but does not enumerate them, and
    the verifier's [refinedSeverity] is stored with an [as any] cast. *)
Record QaIssue := mkIssue {
  issue_id : string;
  location : string;
  issueCategory : string;
  severity : string;
  sourceText : option string;
  targetText : option string;
  description : string;
  suggestionRationale : string;
  suggestionsTarget : list string;
  glossarySource : option string;
  glossaryTermId : option string
}.

Record Scores := mkScores {
  accuracy : Q;
  terminology : Q;
  layout : Q;
  grammar : Q;
  formatting : Q;
  localizationTone : Q
}.

Record Overall := mkOverall {
  qualityLevel : string;
  scores : Scores;
  sceneDescription : string;
  mainProblemsSummary : string
}.

Record Summary := mkSummary {
  severeCount : Q;
  majorCount : Q;
  minorCount : Q;
  optimizationAdvice : string;
  termAdvice : option string
}.

Record ScreenshotReport := mkReport {
  screenshotId : option string;
  overall : Overall;
  issues : list QaIssue;
  summary : Summary
}.

(** Field assignments. *)

Definition set_terminology (v : Q) (s : Scores) : Scores :=
  mkScores (accuracy s) v (layout s) (grammar s) (formatting s)
    (localizationTone s).

Definition set_scores (s : Scores) (o : Overall) : Overall :=
  mkOverall (qualityLevel o) s (sceneDescription o) (mainProblemsSummary o).

Definition set_qualityLevel (q : string) (o : Overall) : Overall :=
  mkOverall q (scores o) (sceneDescription o) (mainProblemsSummary o).

Definition set_overall (o : Overall) (r : ScreenshotReport) : ScreenshotReport :=
  mkReport (screenshotId r) o (issues r) (summary r).

Definition set_issues (l : list QaIssue) (r : ScreenshotReport) : ScreenshotReport :=
  mkReport (screenshotId r) (overall r) l (summary r).

Definition set_screenshotId (i : option string) (r : ScreenshotReport) : ScreenshotReport :=
  mkReport i (overall r) (issues r) (summary r).

(** ** Hallucination guard: [sanitizeReport] *)

Definition autoDowngradedPrefix : string := "[Auto-Downgraded] ".
Definition autoDowngradedSuffix : string :=
  " (Reason: Terminology ID not found in glossary)".
Definition downgradedSource : string := "LLM Knowledge (Downgraded)".

(** [validIds]: the set filled from the regex matches. *)
Definition validIds (glossaryText : string) : gset string :=
  match TermTag.matchAll glossaryText with
  | Some matches => list_to_set matches
  | None => ∅
  end.

(** [termIdRaw ? `[ID:${termIdRaw}]` : null] *)
Definition formattedId (termIdRaw : option string) : option string :=
  match termIdRaw with
  | Some t => if Js.nonEmpty t then Some ("[ID:" +:+ t +:+ "]") else None
  | None => None
  end.

(** [formattedId && validIds.has(formattedId)] *)
Definition isValidTermId (ids : gset string) (termIdRaw : option string) : bool :=
  match formattedId termIdRaw with
  | Some f => bool_decide (f ∈ ids)
  | None => false
  end.

(** The assignments of the [if (!isValid)] branch. *)
Definition downgrade (issue : QaIssue) : QaIssue :=
  mkIssue (issue_id issue) (location issue)
    "Style" "Minor"
    (sourceText issue) (targetText issue)
    (autoDowngradedPrefix +:+ description issue +:+ autoDowngradedSuffix)
    (suggestionRationale issue) (suggestionsTarget issue)
    (Some downgradedSource) None.

(** Body of the [forEach] callback. *)
Definition sanitizeIssue (ids : gset string) (issue : QaIssue) : QaIssue :=
  if String.eqb (issueCategory issue) "Terminology"
  then if isValidTermId ids (glossaryTermId issue) then issue else downgrade issue
  else issue.

Definition isTerminology (i : QaIssue) : bool :=
  String.eqb (issueCategory i) "Terminology".

Definition sanitizeReport (report : ScreenshotReport) (glossaryText : option string)
  : ScreenshotReport :=
  match glossaryText with
  | None => report
  | Some g =>
      if negb (Js.nonEmpty g) then report
      else
        let ids := validIds g in
        let report1 := set_issues (map (sanitizeIssue ids) (issues report)) report in
        let termIssues := List.filter isTerminology (issues report1) in
        if (length termIssues =? 0)%nat
        then set_overall
               (set_scores (set_terminology 5%Q (scores (overall report1)))
                  (overall report1))
               report1
        else report1
  end.

(** ** Effects: backend calls, timers, exceptions *)

Inductive JsError :=
| ReferenceError (name : string)   (* an identifier with no binding in scope *)
| ApiKeyMissing                    (* "API Key is missing..." *)
| FetchFailed                      (* processImageUrl rejects *)
| BackendError (msg : string)      (* generateContent rejects *)
| EmptyResponse                    (* "Received empty response from Gemini API." *)
| InvalidJson                      (* "Invalid JSON response from model." *)
| HttpsError (cause : JsError).    (* functions.https.HttpsError("internal", ...) *)

(** What a module-level identifier denotes where it is read. *)
Inductive Binding :=
| Bound (value : string)
| Unbound (name : string).

Inductive Purpose := Analysis | Verification.

(** Observable actions of one pipeline run, oldest first. *)
Inductive Event :=
| EvFetch (url : string)
| EvGenerate (purpose : Purpose) (model : string)
| EvSleep (ms : N).

Definition History := list Event.

(** [response.text] followed by [JSON.parse] of the cleaned text. *)
Inductive ResponseText (A : Type) :=
| Empty                (* [!responseText] *)
| Malformed            (* [JSON.parse] throws *)
| Parses (a : A).
Arguments Empty {A}.
Arguments Malformed {A}.
Arguments Parses {A} a.

(** Outcome of awaiting [ai.models.generateContent]. *)
Inductive Outcome (A : Type) :=
| Rejects (e : JsError)
| Resolves (t : ResponseText A).
Arguments Rejects {A} e.
Arguments Resolves {A} t.

(** The parsed report before the pipeline's polyfills: the model may omit
    [screenshotId] and [issues]. *)
Record ParsedReport := mkParsed {
  p_screenshotId : option string;
  p_overall : Overall;
  p_issues : option (list QaIssue);
  p_summary : Summary
}.

(** One entry of [verifiedIssues]; [id], [isValid] and [reason] are
    required by the verification schema, and the code still guards
    [reason] with [|| '']. *)
Record Verdict := mkVerdict {
  verdict_id : string;
  isValid : bool;
  reason : option string;
  refinedSeverity : option string;
  refinedRationale : option string
}.

(** [verifiedIssues] is [None] when the field is missing or not an array. *)
Record VerificationResult := mkVerification {
  verifiedIssues : option (list Verdict)
}.

(** The world outside the program.  Every answer may depend on all that
    happened before it. *)
Record Env := mkEnv {
  fetchDataUrl : History → string → option (string * string);
  analysisBackend : History → string → Outcome ParsedReport;
  verifierBackend : History → string → Outcome VerificationResult
}.

(** State (the history) and exceptions. *)
Definition M (A : Type) : Type := History → (JsError + A) * History.

Definition ret {A} (a : A) : M A := fun h => (inr a, h).
Definition throw {A} (e : JsError) : M A := fun h => (inl e, h).
Definition bind {A B} (m : M A) (k : A → M B) : M B :=
  fun h =>
    match m h with
    | (inr a, h') => k a h'
    | (inl e, h') => (inl e, h')
    end.
Definition tryCatch {A} (m : M A) (handler : JsError → M A) : M A :=
  fun h =>
    match m h with
    | (inr a, h') => (inr a, h')
    | (inl e, h') => handler e h'
    end.
Definition emit (e : Event) : M unit := fun h => (inr tt, h ++ [e]).

Global Instance M_ret : MRet M := @ret.
Global Instance M_bind : MBind M := fun A B k m => bind m k.

(** [Promise.all] of two promises: both are started, and the result is
    a rejection as soon as one of them rejects. *)
Definition promiseAll2 {A B} (a : M A) (b : M B) : M (A * B) :=
  fun h =>
    let '(ra, h1) := a h in
    let '(rb, h2) := b h1 in
    match ra, rb with
    | inr x, inr y => (inr (x, y), h2)
    | inl e, _ => (inl e, h2)
    | _, inl e => (inl e, h2)
    end.

(** [await new Promise(resolve => setTimeout(resolve, delay))] *)
Definition sleep (delay : N) : M unit := emit (EvSleep delay).

(** Reading a module-level identifier. *)
Definition readIdent (b : Binding) : M string :=
  match b with
  | Bound v => ret v
  | Unbound n => throw (ReferenceError n)
  end.

(** Auto-healing retry.  [retries] is only ever the default 2, so a
    natural number; [delay] is in milliseconds. *)
Fixpoint retryWithBackoff {T} (fn : M T) (retries : nat) (delay : N) : M T :=
  tryCatch fn (fun error =>
    match retries with
    | O => throw error
    | S retries' =>
        sleep delay ;;
        retryWithBackoff fn retries' (delay * 2)%N
    end).

Definition defaultRetries : nat := 2.
Definition defaultDelay : N := 1000%N.

(** [constants.ts] *)
Definition LLM_MODEL_ID : string := "gemini-3.1-pro-preview".
Definition constants_LLM_FALLBACK_MODEL_ID : string := "gemini-2.0-flash".

Record LlmRequestPayload := mkPayload {
  payload_screenshotId : option string;
  enImageBase64 : option string;
  deImageBase64 : option string;
  targetLanguage : string;
  reportLanguage : string;
  glossaryText : option string
}.

Record ProcessedImage := mkImage {
  mimeType : string;
  data : string
}.

Definition allowedTypes : list string :=
  ["image/png"; "image/jpeg"; "image/webp"; "image/heic"; "image/heif"].

Definition reviewMinorPrefix : string := "[Review: Minor] ".

Section Pipeline.

(** [String.prototype.toLowerCase] belongs to the JS runtime, not to the
    repository: the development is parametric in it. *)
Variable toLowerCase : string → string.

(** Modelled from the spec: [services/reportGenerator.ts] (imported by
    llmService.ts) is not among the sources.  Section 4.6 gives its
    contract: score enforcement takes the issues and the scores and
    returns scores; the quality label is a pure function of the final
    issue list. *)
Variable enforceScoreConsistency : list QaIssue → Scores → Scores.
Variable determineStrictQuality : list QaIssue → string.

(** llmService.ts reads [LLM_FALLBACK_MODEL_ID] in two places, while its
    import from [../constants] lists only [getAnalysisSystemPrompt] and
    [LLM_MODEL_ID].  The binding seen by the module is kept explicit. *)
Variable LLM_FALLBACK_MODEL_ID : Binding.

Variable env : Env.
Variable apiKey : option string.
Variable payload : LlmRequestPayload.

(** *** Calls to the outside *)

Definition generateContent {A} (backend : History → string → Outcome A)
    (purpose : Purpose) (model : string) : M (ResponseText A) :=
  fun h =>
    match backend h model with
    | Rejects e => (inl e, h ++ [EvGenerate purpose model])
    | Resolves t => (inr t, h ++ [EvGenerate purpose model])
    end.

(** [processImageUrl]: fetch, read as data URL, repair the MIME type. *)
Definition processImageUrl (url : string) : M ProcessedImage :=
  fun h =>
    match fetchDataUrl env h url with
    | None => (inl FetchFailed, h ++ [EvFetch url])
    | Some (mime, d) =>
        let mime' :=
          if existsb (String.eqb mime) allowedTypes then mime
          else if Js.endsWith (toLowerCase url) ".png" then "image/png"
          else "image/jpeg" in
        (inr (mkImage mime' d), h ++ [EvFetch url])
    end.

(** *** Verifier agent (llmService.ts) *)

(** [verifiedIssuesMap]: later verdicts for the same id overwrite
    earlier ones. *)
Definition verifiedIssuesMap (result : VerificationResult) : gmap string Verdict :=
  match verifiedIssues result with
  | Some vs => fold_left (fun m v => <[verdict_id v := v]> m) vs ∅
  | None => ∅
  end.

Definition isHallucination (verdict : Verdict) : bool :=
  let reasonLower := toLowerCase (Js.orElse (reason verdict) "") in
  Js.includes reasonLower "hallucination"
  || Js.includes reasonLower "not visible"
  || Js.includes reasonLower "does not exist".

Definition isStyleOrFormatting (issue : QaIssue) : bool :=
  String.eqb (issueCategory issue) "Style"
  || String.eqb (issueCategory issue) "Formatting".

Definition rescue (issue : QaIssue) : QaIssue :=
  mkIssue (issue_id issue) (location issue) (issueCategory issue)
    "Minor"
    (sourceText issue) (targetText issue)
    (reviewMinorPrefix +:+ description issue)
    (suggestionRationale issue) (suggestionsTarget issue)
    (glossarySource issue) (glossaryTermId issue).

Definition set_severity (s : string) (issue : QaIssue) : QaIssue :=
  mkIssue (issue_id issue) (location issue) (issueCategory issue) s
    (sourceText issue) (targetText issue) (description issue)
    (suggestionRationale issue) (suggestionsTarget issue)
    (glossarySource issue) (glossaryTermId issue).

Definition set_suggestionRationale (s : string) (issue : QaIssue) : QaIssue :=
  mkIssue (issue_id issue) (location issue) (issueCategory issue)
    (severity issue)
    (sourceText issue) (targetText issue) (description issue)
    s (suggestionsTarget issue)
    (glossarySource issue) (glossaryTermId issue).

Definition refineSeverity (verdict : Verdict) (issue : QaIssue) : QaIssue :=
  match refinedSeverity verdict with
  | Some s => if Js.nonEmpty s then set_severity s issue else issue
  | None => issue
  end.

Definition refineRationale (verdict : Verdict) (issue : QaIssue) : QaIssue :=
  match refinedRationale verdict with
  | Some s => if Js.nonEmpty s then set_suggestionRationale s issue else issue
  | None => issue
  end.

(** The [filter] callback: [None] when it returns [false], otherwise the
    issue as the callback leaves it. *)
Definition mergeIssue (m : gmap string Verdict) (issue : QaIssue) : option QaIssue :=
  match m !! issue_id issue with
  | Some verdict =>
      if negb (isValid verdict) then
        if isStyleOrFormatting issue && negb (isHallucination verdict)
        then Some (rescue issue)
        else None
      else Some (refineRationale verdict (refineSeverity verdict issue))
  | None => Some issue
  end.

Definition mergeVerdicts (result : VerificationResult) (l : list QaIssue)
  : list QaIssue :=
  omap (mergeIssue (verifiedIssuesMap result)) l.

(** The two nested [try] blocks that obtain [response]; [None] stands
    for the early [return initialReport] of the inner handler. *)
Definition verifierResponse : M (option (ResponseText VerificationResult)) :=
  tryCatch
    (response ← generateContent (verifierBackend env) Verification LLM_MODEL_ID;
     ret (Some response))
    (fun _ =>
       tryCatch
         (model ← readIdent LLM_FALLBACK_MODEL_ID;
          response ← generateContent (verifierBackend env) Verification model;
          ret (Some response))
         (fun _ => ret None)).

Definition verifyIssues (initialReport : ScreenshotReport) : M ScreenshotReport :=
  response ← verifierResponse;
  match response with
  | None => ret initialReport
  | Some Empty => ret initialReport
  | Some Malformed => ret initialReport
  | Some (Parses verificationResult) =>
      ret (set_issues (mergeVerdicts verificationResult (issues initialReport))
             initialReport)
  end.

(** *** Client pipeline (llmService.ts) *)

Definition polyfill (parsed : ParsedReport) : ScreenshotReport :=
  mkReport (payload_screenshotId payload) (p_overall parsed)
    (default [] (p_issues parsed)) (p_summary parsed).

(** Steps 1-3 after verification.  [enforceScoreConsistency] and
    [determineStrictQuality] receive the report; by their contract they
    read its issues (and scores). *)
Definition reconcile (report : ScreenshotReport) : ScreenshotReport :=
  let r1 := sanitizeReport report (glossaryText payload) in
  let r2 := set_overall
              (set_scores (enforceScoreConsistency (issues r1) (scores (overall r1)))
                 (overall r1)) r1 in
  let strictLevel := determineStrictQuality (issues r2) in
  set_overall (set_qualityLevel strictLevel (overall r2)) r2.

(** Prompts and the skill block only shape the request text; the
    backends are arbitrary functions of the history, so the request text
    is not represented.  The result is the [report] field of the
    [LlmResponse] the source returns. *)
Definition runAnalysis (modelId : string) : M ScreenshotReport :=
  images ← promiseAll2
             (processImageUrl (Js.orElse (enImageBase64 payload) ""))
             (processImageUrl (Js.orElse (deImageBase64 payload) ""));
  responseText ← generateContent (analysisBackend env) Analysis modelId;
  match responseText with
  | Empty => throw EmptyResponse
  | Malformed => throw InvalidJson
  | Parses parsed =>
      let parsedReport := polyfill parsed in
      verified ←
        (if (0 <? length (issues parsedReport))%nat
         then verifyIssues parsedReport
         else ret parsedReport);
      ret (reconcile verified)
  end.

Definition callTranslationQaLLM : M ScreenshotReport :=
  if Js.truthy apiKey then
    tryCatch
      (retryWithBackoff (runAnalysis LLM_MODEL_ID) defaultRetries defaultDelay)
      (fun _ =>
         retryWithBackoff
           (model ← readIdent LLM_FALLBACK_MODEL_ID; runAnalysis model)
           defaultRetries defaultDelay)
  else throw ApiKeyMissing.

(** *** Server twin (functions/src/index.ts) *)

Definition serverModel : string := "gemini-3.1-pro-preview".

(** No [refinedRationale] on the server. *)
Definition serverMergeIssue (m : gmap string Verdict) (issue : QaIssue)
  : option QaIssue :=
  match m !! issue_id issue with
  | Some verdict =>
      if negb (isValid verdict) then
        if isStyleOrFormatting issue && negb (isHallucination verdict)
        then Some (rescue issue)
        else None
      else Some (refineSeverity verdict issue)
  | None => Some issue
  end.

(** One [try] around the call, the parse and the merge; one model. *)
Definition serverVerifyIssues (initialReport : ScreenshotReport) : M ScreenshotReport :=
  tryCatch
    (response ← generateContent (verifierBackend env) Verification serverModel;
     match response with
     | Empty => ret initialReport
     | Malformed => throw InvalidJson
     | Parses verificationResult =>
         ret (set_issues
                (omap (serverMergeIssue (verifiedIssuesMap verificationResult))
                   (issues initialReport))
                initialReport)
     end)
    (fun _ => ret initialReport).

(** The images and prompts arrive ready-made in the payload. *)
Definition serverAttempt : M ScreenshotReport :=
  tryCatch
    (responseText ← generateContent (analysisBackend env) Analysis serverModel;
     match responseText with
     | Empty => throw EmptyResponse
     | Malformed => throw InvalidJson
     | Parses parsed =>
         let parsedReport := polyfill parsed in
         verified ←
           (if (0 <? length (issues parsedReport))%nat
            then serverVerifyIssues parsedReport
            else ret parsedReport);
         ret (sanitizeReport verified (glossaryText payload))
     end)
    (fun error => throw (HttpsError error)).

Definition analyzeScreenshot : M ScreenshotReport :=
  if Js.truthy apiKey then
    retryWithBackoff serverAttempt defaultRetries defaultDelay
  else throw (HttpsError ApiKeyMissing).

End Pipeline.

(** ** Scene classifier (skill bank) *)

Inductive SceneType :=
| navigation | form | dashboard | modal | table | settings | error_page
| generic.

Global Instance SceneType_eq_dec : EqDecision SceneType.
Proof. solve_decision. Defined.

(** [Object.entries(SCENE_KEYWORDS)]: the entries in insertion order. *)
Definition SCENE_KEYWORDS : list (SceneType * list string) :=
  [ (navigation, ["nav"; "menu"; "sidebar"; "breadcrumb"; "header"; "tab";
                  "toolbar"; "navigation"; "导航"; "菜单"; "标签栏"]);
    (form, ["form"; "input"; "field"; "submit"; "login"; "signup";
            "register"; "password"; "email"; "search"; "表单"; "输入"; "登录"]);
    (dashboard, ["dashboard"; "analytics"; "chart"; "graph"; "kpi"; "metric";
                 "overview"; "stats"; "仪表板"; "概览"; "统计"]);
    (modal, ["modal"; "dialog"; "popup"; "confirm"; "alert"; "overlay";
             "弹窗"; "对话框"; "确认"]);
    (table, ["table"; "grid"; "list"; "column"; "row"; "data"; "sort";
             "filter"; "表格"; "列表"; "数据"]);
    (settings, ["setting"; "preference"; "config"; "option"; "account";
                "profile"; "toggle"; "switch"; "设置"; "偏好"; "配置"]);
    (error_page, ["error"; "404"; "500"; "not found"; "oops";
                  "something went wrong"; "错误"; "未找到"]);
    (generic, []) ].

(** [keywords.filter((kw) => lower.includes(kw)).length] *)
Definition keywordHits (lower : string) (keywords : list string) : nat :=
  length (List.filter (fun kw => Js.includes lower kw) keywords).

(** One iteration of the [for ... of] loop on the pair
    [(bestScene, bestScore)]. *)
Definition sceneStep (lower : string) (best : SceneType * nat)
    (entry : SceneType * list string) : SceneType * nat :=
  let '(scene, keywords) := entry in
  if decide (scene = generic) then best
  else
    let score := keywordHits lower keywords in
    if (snd best <? score)%nat then (scene, score) else best.

Definition sceneLoop (lower : string) (entries : list (SceneType * list string))
    (best : SceneType * nat) : SceneType * nat :=
  fold_left (sceneStep lower) entries best.

Section SkillBank.

Variable toLowerCase : string → string.

Definition detectSceneType (text : string) : SceneType :=
  let lower := toLowerCase text in
  fst (sceneLoop lower SCENE_KEYWORDS (generic, 0%nat)).

End SkillBank.

(** ** ASCII instance of [toLowerCase], for running the model *)

Definition asciiLowerChar (c : ascii) : ascii :=
  let n := nat_of_ascii c in
  if (65 <=? n)%nat && (n <=? 90)%nat then ascii_of_nat (n + 32) else c.

Fixpoint asciiLower (s : string) : string :=
  match s with
  | EmptyString => EmptyString
  | String c s' => String (asciiLowerChar c) (asciiLower s')
  end.

(** ** Vocabulary of the statements *)

Fixpoint allDigits (s : string) : bool :=
  match s with
  | EmptyString => true
  | String c s' => TermTag.isDigit c && allDigits s'
  end.

(** A tag of the shape [[ID:TERM-nnn]], with at least one digit. *)
Definition wellFormedTag (tag : string) : Prop :=
  ∃ digits, digits ≠ "" ∧ allDigits digits = true
            ∧ tag = "[ID:TERM-" +:+ digits +:+ "]".

Definition occursIn (k s : string) : Prop :=
  ∃ pre post, s = pre +:+ k +:+ post.

(** The number of keywords of a list that occur in a text: [n] of the
    entries of [keywords], counted by position, occur in [lower]. *)
Inductive occurringCount (lower : string) : list string → nat → Prop :=
| count_nil : occurringCount lower [] 0
| count_hit kw keywords n :
    occursIn kw lower → occurringCount lower keywords n →
    occurringCount lower (kw :: keywords) (S n)
| count_miss kw keywords n :
    ¬ occursIn kw lower → occurringCount lower keywords n →
    occurringCount lower (kw :: keywords) n.

(** The term id of an issue is grounded in the glossary: written as
    [[ID:<id>]] it is a well-formed tag that occurs in the text. *)
Definition grounded (glossary : string) (termId : option string) : Prop :=
  ∃ t, termId = Some t
       ∧ wellFormedTag ("[ID:" +:+ t +:+ "]")
       ∧ occursIn ("[ID:" +:+ t +:+ "]") glossary.

Fixpoint charIn (c : ascii) (s : string) : Prop :=
  match s with
  | EmptyString => False
  | String a s' => a = c ∨ charIn c s'
  end.

(** ** Sample data for the worked examples *)

Definition sampleScores : Scores := mkScores 4%Q 2%Q 5%Q 5%Q 4%Q 3%Q.

Definition sampleOverall : Overall :=
  mkOverall "Good" sampleScores "Account settings screen" "One wrong term".

Definition sampleSummary : Summary :=
  mkSummary 0%Q 1%Q 0%Q "Align the term with the glossary" None.

(** A Terminology issue citing a tag that no glossary below contains. *)
Definition ungroundedIssue : QaIssue :=
  mkIssue "Issue-01" "Header" "Terminology" "Major"
    (Some "Account") (Some "Rechnung")
    "Wrong term for Account" "Glossary compliance" ["Konto"]
    (Some "glossary.xlsx") (Some "TERM-999").

(** The same issue citing a tag present in [sampleGlossary]. *)
Definition groundedIssue : QaIssue :=
  mkIssue "Issue-01" "Header" "Terminology" "Major"
    (Some "Account") (Some "Rechnung")
    "Wrong term for Account" "Glossary compliance" ["Konto"]
    (Some "glossary.xlsx") (Some "TERM-001").

Definition sampleGlossary : string :=
  "[source: glossary.xlsx] [ID:TERM-001] Account = Konto".

Definition ungroundedReport : ScreenshotReport :=
  mkReport (Some "settings.png") sampleOverall [ungroundedIssue] sampleSummary.

Definition groundedReport : ScreenshotReport :=
  mkReport (Some "settings.png") sampleOverall [groundedIssue] sampleSummary.

Definition styleIssue : QaIssue :=
  mkIssue "Issue-02" "Welcome banner" "Style" "Major"
    (Some "Hi there!") (Some "Guten Tag.")
    "Inconsistent tone" "Keeps the product voice consistent" ["Hallo!"]
    None None.

Definition layoutIssue : QaIssue :=
  mkIssue "Issue-03" "Footer" "Layout" "Critical"
    None None
    "Save button is truncated" "Prevents UI breakage" ["Resize container"]
    None None.

Definition styleVerdict : Verdict :=
  mkVerdict "Issue-02" false (Some "Negligible stylistic preference") None None.

Definition layoutVerdict : Verdict :=
  mkVerdict "Issue-03" false (Some "The button does not exist in the image")
    None None.

Definition sampleVerification : VerificationResult :=
  mkVerification (Some [styleVerdict; layoutVerdict]).

Definition sampleIssues : list QaIssue := [styleIssue; layoutIssue].

(** The module scope of llmService.ts as written: the identifier is read
    but never imported or declared. *)
Definition llmService_LLM_FALLBACK_MODEL_ID : Binding :=
  Unbound "LLM_FALLBACK_MODEL_ID".

(** Stand-ins for the two functions of reportGenerator.ts, only used to
    run the pipelines on sample inputs. *)
Definition sampleEnforce : list QaIssue → Scores → Scores := fun _ s => s.

Definition sampleDetermine (l : list QaIssue) : string :=
  if existsb (fun i => String.eqb (severity i) "Critical") l then "Critical"
  else if existsb (fun i => String.eqb (severity i) "Major") l then "Poor"
  else "Good".

Definition samplePayload : LlmRequestPayload :=
  mkPayload (Some "settings.png") (Some "blob:en") (Some "blob:de")
    "de-DE" "en" None.

Definition sampleFetch : History → string → option (string * string) :=
  fun _ _ => Some ("image/png", "iVBOR").

(** A backend that rejects every call. *)
Definition rejectingEnv : Env :=
  mkEnv sampleFetch
    (fun _ _ => Rejects (BackendError "503"))
    (fun _ _ => Rejects (BackendError "503")).

(** An issue for which the model returned no suggestion at all. *)
Definition bareIssue : QaIssue :=
  mkIssue "Issue-04" "Sidebar" "Layout" "Minor" None None
    "Label is cut off" "Prevents UI breakage" [] None None.

Definition bareParsed : ParsedReport :=
  mkParsed None sampleOverall (Some [bareIssue]) sampleSummary.

(** A backend answering every analysis call with [bareParsed] and every
    verification call with an empty verdict list. *)
Definition bareEnv : Env :=
  mkEnv sampleFetch
    (fun _ _ => Resolves (Parses bareParsed))
    (fun _ _ => Resolves (Parses (mkVerification (Some [])))).

(** A backend answering every analysis call with the same report. *)
Definition constantEnv (parsed : ParsedReport) : Env :=
  mkEnv sampleFetch
    (fun _ _ => Resolves (Parses parsed))
    (fun _ _ => Resolves Empty).

(** A report without issues carrying the quality label [label]. *)
Definition labelledParsed (label : string) : ParsedReport :=
  mkParsed None (mkOverall label sampleScores "Settings" "None") (Some [])
    sampleSummary.

(** A label different from [l]. *)
Definition otherLabel (l : string) : string :=
  if String.eqb l "Good" then "Poor" else "Good".

Definition labelledReport (label : string) : ScreenshotReport :=
  mkReport (Some "settings.png") (mkOverall label sampleScores "Settings" "None")
    [] sampleSummary.

Definition sampleParsed : ParsedReport :=
  mkParsed None sampleOverall (Some sampleIssues) sampleSummary.

(** One failed analysis attempt of the client, as seen from outside. *)
Definition failedAttempt : History :=
  [EvFetch "blob:en"; EvFetch "blob:de"; EvGenerate Analysis LLM_MODEL_ID].

(** The part of an issue the verifier merge never writes: everything but
    severity, description and rationale. *)
Definition mergeFrame (i : QaIssue) :=
  (issue_id i, location i, issueCategory i, sourceText i, targetText i,
   suggestionsTarget i, glossarySource i, glossaryTermId i).

Definition hallucinationVerdict : Verdict :=
  mkVerdict "Issue-02" false (Some "The banner text is NOT VISIBLE in the image")
    None None.

Definition approvingVerdict : Verdict :=
  mkVerdict "Issue-03" true (Some "Real truncation") (Some "Major")
    (Some "Blocks the save action").

(** [2 ^ i] on binary naturals, for the backoff schedule. *)
Definition backoffDelay (delay : N) (i : nat) : N := (delay * 2 ^ N.of_nat i)%N.

(** * The skill bank and the glossary manager *)

(** ** More JS string and array operations *)

Module JsArray.

(** The line feed of ["\n"]. *)
Definition newline : string := String (ascii_of_nat 10) EmptyString.

(** [l.join(sep)] *)
Fixpoint join (sep : string) (l : list string) : string :=
  match l with
  | [] => EmptyString
  | [x] => x
  | x :: rest => x +:+ sep +:+ join sep rest
  end.

(** [l.slice(0, n)]: a negative [n] counts from the end. *)
Definition slice0 {A} (n : Z) (l : list A) : list A :=
  if (n <? 0)%Z
  then firstn (Z.to_nat (Z.of_nat (length l) + n)) l
  else firstn (Z.to_nat n) l.

(** [s.split(c)] for a one-character separator: the pieces between the
    occurrences of [c], always at least one. *)
Fixpoint split (c : ascii) (s : string) : list string :=
  match s with
  | EmptyString => [EmptyString]
  | String a s' =>
      if Ascii.eqb a c then EmptyString :: split c s'
      else match split c s' with
           | [] => [String a EmptyString]
           | p :: ps => String a p :: ps
           end
  end.

Fixpoint repeat (c : ascii) (n : nat) : string :=
  match n with
  | O => EmptyString
  | S n' => String c (repeat c n')
  end.

(** [s.padStart(targetLength, c)] for a one-character pad string. *)
Definition padStart (targetLength : nat) (c : ascii) (s : string) : string :=
  repeat c (targetLength - String.length s) +:+ s.

(** [String(n)] for a non-negative integer below 10^21. *)
Definition ofNumber (n : N) : string := NilEmpty.string_of_uint (N.to_uint n).

End JsArray.

(** ** Skill bank: registry, retrieval, prompt block *)

Record LqaSkill := mkSkill {
  skill_name : string;
  principle : string;
  whenToApply : string;
  examples : option (list string)
}.

Definition GENERAL_SKILLS : list LqaSkill :=
  [ mkSkill "text_expansion_guard"
      ("German text is typically 30-40% longer than English; French is 15-20% longer. "
       +:+ "Prioritize checking short UI elements (buttons, tabs, labels, menu items) for truncation.")
      "Always. This is the #1 source of visual bugs in localization."
      (Some ["'Settings' → 'Einstellungen' (+60%)";
             "'Submit' → 'Soumettre' (+40%)";
             "'OK' → 'OK' (no expansion, skip)"]);
    mkSkill "compound_word_detection"
      ("German forms very long compound nouns (e.g., 'Datenschutzgrundverordnung'). "
       +:+ "If a compound exceeds the width of its container in the source UI, flag it as a Layout issue "
       +:+ "and suggest hyphenation, abbreviation, or a shorter synonym.")
      "When target language is de-DE."
      None;
    mkSkill "number_date_locale_format"
      ("Check that numbers use locale-correct delimiters (DE: 1.234,56 / FR: 1 234,56) "
       +:+ "and dates follow locale conventions (DE: TT.MM.JJJJ / FR: JJ/MM/AAAA). "
       +:+ "Flag any remaining en-US formats (e.g., MM/DD/YYYY, 1,234.56) as Formatting issues.")
      "Whenever numbers, currencies, or dates are visible in valid areas."
      (Some ["EN '$1,234.56' should become DE '1.234,56 $' or '1.234,56 USD'";
             "EN '02/12/2026' should become DE '12.02.2026'"]);
    mkSkill "capitalization_conventions"
      ("German capitalizes all nouns; French generally does not capitalize after the first word of a title. "
       +:+ "Flag deviations from locale norms as Style issues (Minor severity).")
      "When headings, labels, or button text are visible."
      None;
    mkSkill "politeness_register"
      ("Formal 'Sie' is standard in German business UIs; informal 'tu' is rare in French enterprise UIs. "
       +:+ "Flag inconsistent use of formal/informal register as Style issues.")
      "When interactive text (prompts, instructions, error messages) is visible."
      None;
    mkSkill "icon_text_alignment"
      ("After text expansion, icon+text pairs may misalign. Check that icons and their labels "
       +:+ "remain visually paired — if expanded text pushes the icon off its natural position, report as Layout.")
      "When icon+label combinations are visible in valid areas."
      None;
    mkSkill "ui_layer_occlusion"
      ("When a modal, dialog, popup, dropdown, or toast is visible, the page is split into "
       +:+ "foreground (the active overlay) and background (the dimmed/covered page). "
       +:+ "Text in the background that appears cut off or hidden is NOT a layout bug — it is "
       +:+ "normal UI layering. NEVER report occluded background text as Truncation, Layout Issue, "
       +:+ "or Translation Missing. Only inspect the foreground window and unoccluded background areas.")
      "Whenever a floating overlay, modal, dialog, or popup is visible in the screenshot."
      (Some ["Delete confirmation dialog covers a legal disclaimer → ignore the disclaimer text";
             "Dropdown menu overlaps a table row → do NOT flag the partially hidden row as truncated"]) ].

Definition SCENE_SKILLS : list (SceneType * list LqaSkill) :=
  [ (navigation,
     [ mkSkill "nav_truncation_priority"
         ("Navigation items have the tightest width constraints. "
          +:+ "If any nav label is truncated, suggest an abbreviated translation first, "
          +:+ "e.g., 'Berichte' instead of 'Berichterstattung'. "
          +:+ "Never suggest 'increase container width' for nav items — it is not feasible.")
         "When screenshots contain top nav bars, side nav, or breadcrumbs."
         None;
       mkSkill "nav_consistency"
         ("All navigation labels should maintain consistent translation style. "
          +:+ "If 'Dashboard' is translated as 'Übersicht' in one place, it should not appear as 'Instrumententafel' elsewhere.")
         "When multiple nav labels are visible."
         None ]);
    (form,
     [ mkSkill "form_label_overflow"
         ("Form field labels sit next to input boxes. Expanded translations can overflow into the input area. "
          +:+ "Check each label-input pair for overlap. Suggest shorter labels or moving the label above the input.")
         "When form fields with labels are visible."
         (Some ["'First Name' → DE 'Vorname' ✓ (fits)";
                "'Payment Method' → DE 'Zahlungsmethode' (check if it overflows the label column)"]);
       mkSkill "placeholder_translation"
         ("Input placeholder text should also be localized. If an English placeholder is visible in a target-language screenshot, "
          +:+ "flag it as an Untranslated issue (but remember the rule: ignore Untranslated, so DO NOT report it).")
         "When form inputs with visible placeholder text are present."
         None;
       mkSkill "validation_message_check"
         ("Error/validation messages need special attention: they must be fully translated and culturally appropriate. "
          +:+ "A validation message that says 'Eingabe ungültig' is better than a literal translation of 'Invalid input'.")
         "When error states or validation messages are visible."
         None ]);
    (dashboard,
     [ mkSkill "dashboard_card_density"
         ("Dashboard cards and KPI tiles have fixed dimensions. Expanded text can cause card content "
          +:+ "to wrap awkwardly or push elements below the fold. Check each card for visual integrity.")
         "When dashboard or analytics views with cards/tiles are visible."
         None;
       mkSkill "chart_axis_labels"
         ("Chart axis labels and legends are often auto-sized. Verify translated axis labels are not clipped. "
          +:+ "Suggest abbreviations for long axis labels (e.g., 'Umsatz' instead of 'Umsatzerlöse').")
         "When charts, graphs, or data visualizations are visible."
         None ]);
    (modal,
     [ mkSkill "modal_button_balance"
         ("Modal dialogs typically have action buttons (OK/Cancel). In German, these expand significantly. "
          +:+ "Check that buttons don't overflow the modal footer or wrap to a new line. "
          +:+ "Suggest: 'Abbrechen' → 'Abbr.' if space is critical.")
         "When modal dialogs, popups, or confirmation windows are visible."
         None;
       mkSkill "modal_content_scroll"
         ("Modal body content that expands due to translation may push content below the visible area. "
          +:+ "If the target modal appears significantly taller, flag as a Minor Layout issue.")
         "When modals with substantial body text are visible."
         None;
       mkSkill "modal_background_exclusion"
         ("When a modal/dialog is the active foreground element, ALL background content is "
          +:+ "in an inactive state. Any text behind the modal that appears clipped, partially hidden, "
          +:+ "or visually incomplete must be treated as 'Occluded (Ignored)' — not as a real issue. "
          +:+ "Focus your entire LQA analysis on the modal's title, body text, input fields, and action buttons.")
         "When any modal, dialog, or overlay popup is the primary interactive element."
         (Some ["Confirmation dialog covers page footer → footer text is NOT truncated, it is occluded";
                "Cookie consent banner overlaps sidebar → sidebar issues are NOT reportable"]) ]);
    (table,
     [ mkSkill "table_header_truncation"
         ("Table column headers are the most constrained UI elements. German translations almost always "
          +:+ "exceed English column widths. Prioritize abbreviation suggestions for every truncated header. "
          +:+ "Example: 'Beschreibung' → 'Beschr.' or 'Status' (keep as-is if same).")
         "When data tables with column headers are visible."
         None;
       mkSkill "table_cell_wrapping"
         ("If table cells wrap to multiple lines due to translation expansion, the row height increases "
          +:+ "inconsistently. Flag this as Minor Layout if it significantly impacts readability.")
         "When data tables with content rows are visible."
         None ]);
    (settings,
     [ mkSkill "settings_toggle_labels"
         ("Toggle switches and checkboxes have labels that must fit on one line. "
          +:+ "German settings labels are frequently truncated. Always suggest a compact alternative.")
         "When settings/preferences screens with toggles are visible."
         None;
       mkSkill "settings_section_headers"
         ("Settings section headers (e.g., 'Account Settings' → 'Kontoeinstellungen') "
          +:+ "may overflow their container. Check each section header independently.")
         "When settings pages with grouped sections are visible."
         None ]);
    (error_page,
     [ mkSkill "error_tone_check"
         ("Error pages should maintain a helpful, non-blame tone in the target language. "
          +:+ "Verify that error messages don't sound harsh or overly technical after translation.")
         "When 404, 500, or other error pages are visible."
         None ]);
    (generic, []) ].

Record RetrievedSkills := mkRetrieved {
  generalSkills : list LqaSkill;
  sceneSkills : list LqaSkill;
  sceneType : SceneType
}.

(** [SCENE_SKILLS[sceneType] || []] *)
Definition sceneSkillsOf (scene : SceneType) : list LqaSkill :=
  match List.find (fun entry => bool_decide (fst entry = scene)) SCENE_SKILLS with
  | Some entry => snd entry
  | None => []
  end.

(** The key of a scene type, as the template literal prints it. *)
Definition sceneTypeName (scene : SceneType) : string :=
  match scene with
  | navigation => "navigation"
  | form => "form"
  | dashboard => "dashboard"
  | modal => "modal"
  | table => "table"
  | settings => "settings"
  | error_page => "error_page"
  | generic => "generic"
  end.

(** The callback of [GENERAL_SKILLS.filter]. *)
Definition languageApplies (targetLang : string) (skill : LqaSkill) : bool :=
  if String.eqb (skill_name skill) "compound_word_detection"
     && negb (String.eqb targetLang "de-DE")
  then false else true.

Section SkillRetrieval.

Variable toLowerCase : string → string.

Definition retrieveSkills (sceneHint targetLang : string) : RetrievedSkills :=
  let filteredGeneral := List.filter (languageApplies targetLang) GENERAL_SKILLS in
  let sceneType := detectSceneType toLowerCase sceneHint in
  mkRetrieved filteredGeneral (sceneSkillsOf sceneType) sceneType.

End SkillRetrieval.

(** The one or two lines pushed for a skill. *)
Definition skillLines (skill : LqaSkill) : list string :=
  ("  • [" +:+ skill_name skill +:+ "]: " +:+ principle skill)
  :: match examples skill with
     | Some (e :: es) =>
         ["    Examples: " +:+ JsArray.join " | " (JsArray.slice0 2 (e :: es))]
     | _ => []
     end.

(** The [lines] array of [formatSkillsForPrompt]. *)
Definition skillPromptLines (skills : RetrievedSkills) (maxSkills : Z)
  : list string :=
  ["=== RETRIEVED LQA SKILLS (Apply these during analysis) ===";
   "";
   "## General Principles:"]
  ++ flat_map skillLines (generalSkills skills)
  ++ (if (0 <? length (sceneSkills skills))%nat
      then [""; "## Scene-Specific Skills (detected: "
                +:+ sceneTypeName (sceneType skills) +:+ "):"]
           ++ flat_map skillLines (JsArray.slice0 maxSkills (sceneSkills skills))
      else [])
  ++ [""; "=== END SKILLS ==="].

Definition formatSkillsForPrompt (skills : RetrievedSkills) (maxSkills : Z)
  : string :=
  JsArray.join JsArray.newline (skillPromptLines skills maxSkills).

Definition defaultMaxSkills : Z := 5%Z.

(** ** Glossary manager: language detection and compilation *)

Record LoadedFile := mkFile {
  file_id : string;
  file_name : string;
  file_count : nat;
  terms : list string
}.

(** [termMap.set(key, value)] on a map kept in insertion order: a key
    already present keeps its place and takes the new value. *)
Fixpoint mapSet (key value : string) (m : list (string * string))
  : list (string * string) :=
  match m with
  | [] => [(key, value)]
  | (k, v) :: rest =>
      if String.eqb k key then (k, value) :: rest
      else (k, v) :: mapSet key value rest
  end.

(** [`TERM-${String(n).padStart(3, '0')}`] *)
Definition mintTermId (n : N) : string :=
  "TERM-" +:+ JsArray.padStart 3 "0" (JsArray.ofNumber n).

(** The tagged line stored for a term. *)
Definition taggedLine (n : N) (line fileName : string) : string :=
  "[ID:" +:+ mintTermId n +:+ "] " +:+ line +:+ " [source: " +:+ fileName +:+ "]".

(** What [recompileGlossary] hands to its callbacks. *)
Record GlossaryUpdate := mkUpdate {
  totalTerms : nat;
  mergedContent : string;
  langDetected : option string
}.

Section GlossaryManager.

(** [toLowerCase] and [trim] belong to the JS runtime. *)
Variable toLowerCase : string → string.
Variable trim : string → string.

Definition detectLanguageFromFile (filename : string) : option string :=
  let lower := toLowerCase filename in
  if Js.includes lower "de" || Js.includes lower "ger"
     || Js.includes lower "deutsch"
  then Some "de-DE"
  else if Js.includes lower "fr" || Js.includes lower "fre"
          || Js.includes lower "french"
  then Some "fr-FR"
  else None.

(** The callback of [file.terms.forEach], on the pair of the term map
    and the counter. *)
Definition compileLine (fileName : string)
    (st : list (string * string) * N) (line : string)
  : list (string * string) * N :=
  let '(termMap, termCounter) := st in
  let parts := JsArray.split "=" line in
  if (2 <=? length parts)%nat then
    let sourceKey := toLowerCase (trim (hd "" parts)) in
    (mapSet sourceKey (taggedLine termCounter line fileName) termMap,
     (termCounter + 1)%N)
  else st.

(** The callback of [files.forEach], without the language bookkeeping. *)
Definition compileFile (st : list (string * string) * N) (file : LoadedFile)
  : list (string * string) * N :=
  fold_left (compileLine (file_name file)) (terms file) st.

(** The term map after all files, with the counter. *)
Definition compileFiles (files : list LoadedFile) : list (string * string) * N :=
  fold_left compileFile files ([], 1%N).

(** [fileLangs] after all files. *)
Definition fileLangs (files : list LoadedFile) : gset string :=
  fold_left
    (fun langs file =>
       match detectLanguageFromFile (file_name file) with
       | Some detected => {[detected]} ∪ langs
       | None => langs
       end)
    files ∅.

Definition recompileGlossary (files : list LoadedFile) : GlossaryUpdate :=
  match files with
  | [] => mkUpdate 0 "" None
  | _ =>
      let langs := fileLangs files in
      let detected :=
        if bool_decide ("de-DE" ∈ langs) && negb (bool_decide ("fr-FR" ∈ langs))
        then Some "de-DE"
        else if bool_decide ("fr-FR" ∈ langs)
                && negb (bool_decide ("de-DE" ∈ langs))
        then Some "fr-FR"
        else None in
      let uniqueTerms := map snd (fst (compileFiles files)) in
      mkUpdate (length uniqueTerms)
        (JsArray.join JsArray.newline uniqueTerms) detected
  end.

End GlossaryManager.

(** Identity stand-in for [trim], for inputs without outer white space. *)
Definition noTrim (s : string) : string := s.

Definition sampleFiles : list LoadedFile :=
  [ mkFile "a1" "terms_de.xlsx" 3
      ["Account = Konto"; "Site = Standort"; "no separator here"];
    mkFile "b2" "extra_de.xlsx" 2
      ["account = Benutzerkonto"; "Save = Speichern"] ].

(** A compiled term as the triple it was minted from: the counter value,
    the term line and the file name. *)
Definition entryId (e : N * string * string) : N := fst (fst e).

Definition taggedEntry (e : N * string * string) : string :=
  taggedLine (fst (fst e)) (snd (fst e)) (snd e).

(** Reading a decimal numeral back; leading zeros do not count. *)
Definition decodeNumber (s : string) : option N :=
  option_map N.of_uint (NilEmpty.uint_of_string s).

(** What holds of the term map and the counter throughout compilation:
    the keys are distinct, the values are tagged lines, and their
    counters are distinct and below the next counter. *)
Definition compiled (st : list (string * string) * N) : Prop :=
  NoDup (map fst (fst st))
  ∧ ∃ entries,
      map snd (fst st) = map taggedEntry entries
      ∧ NoDup (map entryId entries)
      ∧ ∀ x, x ∈ entries → (entryId x < snd st)%N.

(** [v] is the tagged line minted with counter [n] for a term line of
    one of the loaded files, a term line being one that contains "=". *)
Definition termLineOf (files : list LoadedFile) (n : N) (v : string) : Prop :=
  ∃ file line, file ∈ files ∧ line ∈ terms file ∧ charIn "=" line
    ∧ v = taggedLine n line (file_name file).

(** An image store that serves every image as a byte stream. *)
Definition octetEnv : Env :=
  mkEnv (fun _ _ => Some ("application/octet-stream", "iVBOR"))
    (fun _ _ => Rejects (BackendError "503"))
    (fun _ _ => Rejects (BackendError "503")).

(** No image can be fetched. *)
Definition offlineEnv : Env :=
  mkEnv (fun _ _ => None)
    (fun _ _ => Rejects (BackendError "503"))
    (fun _ _ => Rejects (BackendError "503")).

Definition glossaryPayload : LlmRequestPayload :=
  mkPayload (Some "settings.png") (Some "blob:en") (Some "blob:de")
    "de-DE" "en" (Some sampleGlossary).

Definition groundedParsed : ParsedReport :=
  mkParsed (Some "made-up-id") sampleOverall (Some [groundedIssue]) sampleSummary.

Definition groundedClientReport : ScreenshotReport :=
  mkReport (Some "settings.png")
    (mkOverall "Poor" sampleScores "Account settings screen" "One wrong term")
    [groundedIssue] sampleSummary.
(** * Properties *)

(** Unfolds the monad operations. *)
Ltac unfold_m :=
  unfold mbind, M_bind, mret, M_ret, bind, ret, throw, tryCatch, sleep, emit,
    readIdent, generateContent in *.

(** ** The tag scanner finds exactly the well-formed tags of the text *)

Lemma append_cons (x : ascii) (a b : string) :
  String x a +:+ b = String x (a +:+ b).
Proof. reflexivity. Qed.

Lemma append_nil_l (b : string) : "" +:+ b = b.
Proof. reflexivity. Qed.

Ltac str_simpl := rewrite ?append_cons, ?append_nil_l in *.

Lemma append_assoc (a b c : string) : (a +:+ b) +:+ c = a +:+ (b +:+ c).
Proof. induction a as [|x a IH]; str_simpl; [reflexivity | now rewrite IH]. Qed.

Lemma append_nil_r (a : string) : a +:+ "" = a.
Proof. induction a as [|x a IH]; str_simpl; [reflexivity | now rewrite IH]. Qed.

Lemma length_append (a b : string) :
  String.length (a +:+ b) = (String.length a + String.length b)%nat.
Proof.
  induction a as [|x a IH]; str_simpl; simpl; [reflexivity | now rewrite IH].
Qed.

Lemma dropPrefix_Some p s r : Js.dropPrefix p s = Some r → s = p +:+ r.
Proof.
  revert s; induction p as [|a p IH]; intros s H; simpl in *.
  - now inversion H.
  - destruct s as [|b s]; [discriminate|].
    destruct (Ascii.eqb a b) eqn:E; [|discriminate].
    apply Ascii.eqb_eq in E; subst b. now rewrite (IH _ H).
Qed.

Lemma dropPrefix_append p r : Js.dropPrefix p (p +:+ r) = Some r.
Proof.
  induction p as [|a p IH]; str_simpl; simpl; [reflexivity|].
  now rewrite Ascii.eqb_refl.
Qed.

Lemma spanDigits_sound s ds rest :
  TermTag.spanDigits s = (ds, rest) → allDigits ds = true ∧ s = ds +:+ rest.
Proof.
  revert ds rest; induction s as [|c s IH]; intros ds rest H; simpl in H.
  - now inversion H.
  - destruct (TermTag.isDigit c) eqn:Hc.
    + destruct (TermTag.spanDigits s) as [ds' rest'] eqn:Hs.
      inversion H; subst. destruct (IH _ _ eq_refl) as [Hd Heq].
      simpl. rewrite Hc, Hd. split; [reflexivity | now rewrite append_cons, <- Heq].
    + now inversion H.
Qed.

Lemma spanDigits_complete ds c rest :
  allDigits ds = true → TermTag.isDigit c = false →
  TermTag.spanDigits (ds +:+ String c rest) = (ds, String c rest).
Proof.
  intros Hd Hc. induction ds as [|d ds IH]; str_simpl; simpl in *.
  - now rewrite Hc.
  - apply andb_true_iff in Hd as [Hd1 Hd2]. now rewrite Hd1, (IH Hd2).
Qed.

Lemma matchAt_sound s m rest :
  TermTag.matchAt s = Some (m, rest) → wellFormedTag m ∧ s = m +:+ rest.
Proof.
  unfold TermTag.matchAt. intros H.
  destruct (Js.dropPrefix "[ID:TERM-" s) as [r|] eqn:Hp; [|discriminate].
  apply dropPrefix_Some in Hp.
  destruct (TermTag.spanDigits r) as [ds tl] eqn:Hs.
  apply spanDigits_sound in Hs as [Hd Hr].
  destruct ds as [|d ds]; [discriminate|].
  destruct tl as [|c tl]; [discriminate|].
  destruct (Ascii.eqb c "]") eqn:Hc; [|discriminate].
  apply Ascii.eqb_eq in Hc; subst c. inversion H; subst m rest; clear H.
  split.
  - exists (String d ds). repeat split; [discriminate | exact Hd].
  - rewrite Hp, Hr. rewrite !append_assoc. reflexivity.
Qed.

Lemma matchAt_complete m post :
  wellFormedTag m → TermTag.matchAt (m +:+ post) = Some (m, post).
Proof.
  intros (ds & Hne & Hd & ->). unfold TermTag.matchAt.
  rewrite !append_assoc, dropPrefix_append.
  change ("]" +:+ post) with (String "]" post).
  rewrite spanDigits_complete by (exact Hd || reflexivity).
  destruct ds as [|d ds]; [congruence|]. reflexivity.
Qed.

Lemma charIn_append c a b : charIn c (a +:+ b) ↔ charIn c a ∨ charIn c b.
Proof.
  induction a as [|x a IH]; str_simpl; simpl; [tauto|]. rewrite IH. tauto.
Qed.

Lemma charIn_digits c ds :
  allDigits ds = true → charIn c ds → TermTag.isDigit c = true.
Proof.
  induction ds as [|d ds IH]; simpl; [tauto|].
  intros [Hd Hds]%andb_true_iff [-> | Hin]; auto.
Qed.

(** The opening bracket is the only ["["] of a well-formed tag. *)
Lemma wellFormedTag_shape m :
  wellFormedTag m → ∃ tl, m = String "[" tl ∧ ¬ charIn "[" tl.
Proof.
  intros (ds & _ & Hd & ->).
  exists ("ID:TERM-" +:+ ds +:+ "]"). split; [reflexivity|].
  str_simpl. simpl. rewrite charIn_append. simpl.
  intros [H|[H|[H|[H|[H|[H|[H|[H|[H|[H|[]]]]]]]]]]]; try discriminate H.
  now apply (charIn_digits _ _ Hd) in H.
Qed.

Lemma append_split_fresh b : ∀ a c x rest,
  a +:+ String c x = b +:+ rest → ¬ charIn c b →
  ∃ a', a = b +:+ a' ∧ rest = a' +:+ String c x.
Proof.
  induction b as [|b0 b IH]; intros a c x rest Heq Hc; str_simpl.
  - exists a. now split.
  - destruct a as [|a0 a]; str_simpl; inversion Heq; subst.
    + exfalso. apply Hc. now left.
    + destruct (IH a c x rest) as (a' & -> & ->); [assumption | |].
      * intros Hin. apply Hc. now right.
      * exists a'. now split.
Qed.

(** A match at the current position never swallows the start of a later
    tag: resuming after it loses no occurrence. *)
Lemma occurrence_after_match m0 rest c pre m post :
  wellFormedTag m0 → wellFormedTag m →
  String c pre +:+ m +:+ post = m0 +:+ rest →
  ∃ pre', rest = pre' +:+ m +:+ post.
Proof.
  intros (tl0 & -> & Hfresh)%wellFormedTag_shape (tl & -> & _)%wellFormedTag_shape Heq.
  str_simpl. inversion Heq as [[Hc Htl]].
  destruct (append_split_fresh tl0 pre "[" (tl +:+ post) rest Htl Hfresh)
    as (pre' & _ & ->).
  now exists pre'.
Qed.

Lemma scan_sound fuel : ∀ s m,
  m ∈ TermTag.scan fuel s → wellFormedTag m ∧ occursIn m s.
Proof.
  induction fuel as [|fuel IH]; intros s m Hin; simpl in Hin.
  - now apply elem_of_nil in Hin.
  - destruct (TermTag.matchAt s) as [[m0 rest]|] eqn:Hm.
    + apply matchAt_sound in Hm as [Hwf ->].
      apply elem_of_cons in Hin as [-> | Hin].
      * split; [assumption|]. exists "", rest. reflexivity.
      * destruct (IH _ _ Hin) as [Hwf' (pre & post & ->)].
        split; [assumption|]. exists (m0 +:+ pre), post.
        now rewrite append_assoc.
    + destruct s as [|c s]; [now apply elem_of_nil in Hin|].
      destruct (IH _ _ Hin) as [Hwf' (pre & post & ->)].
      split; [assumption|]. exists (String c pre), post. reflexivity.
Qed.

Lemma wellFormedTag_length m : wellFormedTag m → (0 < String.length m)%nat.
Proof. intros (ds & _ & _ & ->). str_simpl. simpl. lia. Qed.

Lemma scan_complete fuel : ∀ s m pre post,
  wellFormedTag m → s = pre +:+ m +:+ post → (String.length s ≤ fuel)%nat →
  m ∈ TermTag.scan fuel s.
Proof.
  induction fuel as [|fuel IH]; intros s m pre post Hwf -> Hlen.
  - apply wellFormedTag_length in Hwf. rewrite !length_append in Hlen. lia.
  - simpl. destruct pre as [|c pre].
    + str_simpl. rewrite (matchAt_complete m post Hwf). apply list_elem_of_here.
    + destruct (TermTag.matchAt (String c pre +:+ m +:+ post))
        as [[m0 rest]|] eqn:Hm.
      * apply list_elem_of_further.
        pose proof (matchAt_sound _ _ _ Hm) as [Hwf0 Heq].
        destruct (occurrence_after_match _ _ _ _ _ _ Hwf0 Hwf Heq) as (pre' & ->).
        apply (IH _ m pre' post Hwf eq_refl).
        apply wellFormedTag_length in Hwf0.
        rewrite Heq in Hlen. rewrite length_append in Hlen. lia.
      * str_simpl. apply (IH _ m pre post Hwf eq_refl).
        str_simpl. simpl in Hlen. lia.
Qed.

(** [validIds] holds exactly the well-formed tags that occur in the text. *)
Lemma validIds_spec (g tag : string) :
  tag ∈ validIds g ↔ wellFormedTag tag ∧ occursIn tag g.
Proof.
  assert (Hset : tag ∈ validIds g ↔ tag ∈ TermTag.scan (String.length g) g).
  { unfold validIds, TermTag.matchAll.
    destruct (TermTag.scan (String.length g) g) as [|m ms].
    - rewrite elem_of_nil. set_solver.
    - apply elem_of_list_to_set. }
  rewrite Hset. split.
  - apply scan_sound.
  - intros [Hwf (pre & post & ->)].
    now apply (scan_complete _ _ tag pre post).
Qed.

(** The code's validity test is groundedness. *)
Lemma isValidTermId_grounded (g : string) (termId : option string) :
  isValidTermId (validIds g) termId = true ↔ grounded g termId.
Proof.
  unfold isValidTermId, formattedId, grounded. split.
  - destruct termId as [t|]; [|discriminate].
    destruct (Js.nonEmpty t); [|discriminate].
    intros H%bool_decide_eq_true. apply validIds_spec in H as [Hwf Hocc].
    eauto.
  - intros (t & -> & Hwf & Hocc).
    destruct t as [|c t].
    + destruct Hwf as (ds & _ & _ & Heq). discriminate Heq.
    + simpl. apply bool_decide_eq_true, validIds_spec. now split.
Qed.

(** ** Hallucination guard *)

Lemma sanitizeIssue_idempotent ids issue :
  sanitizeIssue ids (sanitizeIssue ids issue) = sanitizeIssue ids issue.
Proof.
  unfold sanitizeIssue.
  destruct (String.eqb (issueCategory issue) "Terminology") eqn:Hcat.
  - destruct (isValidTermId ids (glossaryTermId issue)) eqn:Hvalid.
    + now rewrite Hcat, Hvalid.
    + reflexivity.
  - now rewrite Hcat.
Qed.

Lemma sanitizeIssue_map_idempotent ids l :
  map (sanitizeIssue ids) (map (sanitizeIssue ids) l) = map (sanitizeIssue ids) l.
Proof.
  induction l as [|i l IH]; simpl; [reflexivity|].
  now rewrite sanitizeIssue_idempotent, IH.
Qed.

(** C9: without a glossary (undefined or empty) the report is left as it
    is, whatever Terminology issues it holds. *)
Theorem sanitizeReport_without_glossary (report : ScreenshotReport)
    (glossaryText : option string) :
  glossaryText = None ∨ glossaryText = Some "" →
  sanitizeReport report glossaryText = report.
Proof.
  intros [-> | ->]; reflexivity.
Qed.

(** C8: sanitizing a sanitized report changes nothing: every field of
    every issue and every score is as after the first pass. *)
Theorem sanitizeReport_idempotent (report : ScreenshotReport)
    (glossaryText : option string) :
  sanitizeReport (sanitizeReport report glossaryText) glossaryText
  = sanitizeReport report glossaryText.
Proof.
  destruct glossaryText as [g|]; [|reflexivity].
  unfold sanitizeReport.
  destruct (Js.nonEmpty g); simpl; [|reflexivity].
  destruct (length (List.filter isTerminology
                      (map (sanitizeIssue (validIds g)) (issues report))) =? 0)%nat
    eqn:Hnone; simpl;
    rewrite sanitizeIssue_map_idempotent, Hnone; reflexivity.
Qed.

Lemma sanitizeIssue_not_terminology ids issue :
  isValidTermId ids (glossaryTermId issue) = false ∨ isTerminology issue = false →
  isTerminology (sanitizeIssue ids issue) = false.
Proof.
  unfold sanitizeIssue, isTerminology.
  destruct (String.eqb (issueCategory issue) "Terminology") eqn:Hcat;
    intros [Hv | Hv]; try congruence.
  now rewrite Hv.
Qed.

(** C2 (amended): with a non-empty glossary text in which no Terminology
    issue of the report is grounded, sanitization leaves the terminology
    score at exactly 5 and turns each Terminology issue, in place, into a
    Style / Minor issue with the auto-downgrade marker in front of its
    description, no term id, and the downgrade sentinel as source. *)
Theorem sanitizeReport_ungrounded_terminology (report : ScreenshotReport)
    (g : string) :
  g ≠ "" →
  (∀ i, i ∈ issues report → issueCategory i = "Terminology" →
        ¬ grounded g (glossaryTermId i)) →
  terminology (scores (overall (sanitizeReport report (Some g)))) = 5%Q
  ∧ ∀ k i, issues report !! k = Some i → issueCategory i = "Terminology" →
      ∃ i', issues (sanitizeReport report (Some g)) !! k = Some i'
        ∧ issueCategory i' = "Style"
        ∧ severity i' = "Minor"
        ∧ description i' = "[Auto-Downgraded] " +:+ description i
                           +:+ " (Reason: Terminology ID not found in glossary)"
        ∧ glossaryTermId i' = None
        ∧ glossarySource i' = Some "LLM Knowledge (Downgraded)".
Proof.
  intros Hg Hungrounded.
  assert (Hinvalid : ∀ i, i ∈ issues report → issueCategory i = "Terminology" →
                          isValidTermId (validIds g) (glossaryTermId i) = false).
  { intros i Hi Hcat. apply not_true_is_false.
    intros Hv%isValidTermId_grounded. exact (Hungrounded i Hi Hcat Hv). }
  assert (Hnone : List.filter isTerminology
                    (map (sanitizeIssue (validIds g)) (issues report)) = []).
  { clear Hungrounded. induction (issues report) as [|i l IH]; [reflexivity|].
    simpl. rewrite sanitizeIssue_not_terminology.
    - apply IH. intros j Hj. apply Hinvalid. now right.
    - destruct (String.eqb (issueCategory i) "Terminology") eqn:Hcat.
      + left. apply Hinvalid; [left | now apply String.eqb_eq].
      + now right. }
  unfold sanitizeReport. destruct g as [|c g]; [congruence|]. simpl.
  rewrite Hnone. simpl. split; [reflexivity|].
  intros k i Hk Hcat. exists (downgrade i). split; [|now repeat split].
  change (map (sanitizeIssue (validIds (String c g))) (issues report) !! k
          = Some (downgrade i)).
  rewrite list_lookup_fmap, Hk. simpl. f_equal.
  unfold sanitizeIssue. rewrite Hcat. simpl.
  rewrite Hinvalid; [reflexivity | | assumption].
  apply list_elem_of_lookup. eauto.
Qed.

Lemma ungroundedIssue_not_grounded (g : string) :
  isValidTermId (validIds g) (Some "TERM-999") = false →
  ∀ i, i ∈ issues ungroundedReport → issueCategory i = "Terminology" →
       ¬ grounded g (glossaryTermId i).
Proof.
  intros Hv i Hi _ Hgr. apply list_elem_of_singleton in Hi. subst i.
  apply isValidTermId_grounded in Hgr. simpl in Hgr. congruence.
Qed.

Lemma sanitizeReport_ungrounded_terminology_witness :
  terminology
    (scores (overall (sanitizeReport ungroundedReport (Some sampleGlossary))))
  = 5%Q.
Proof.
  apply (sanitizeReport_ungrounded_terminology ungroundedReport sampleGlossary).
  - discriminate.
  - apply ungroundedIssue_not_grounded. vm_compute. reflexivity.
Defined.

(** C2 as stated fails on the empty glossary text: nothing is grounded
    in it, yet the issue stays a Major Terminology issue with its term
    id, and the terminology score stays 2. *)
Lemma sanitizeReport_empty_glossary_counterexample :
  (∀ i, i ∈ issues ungroundedReport → issueCategory i = "Terminology" →
        ¬ grounded "" (glossaryTermId i))
  ∧ terminology (scores (overall (sanitizeReport ungroundedReport (Some ""))))
    = 2%Q
  ∧ map issueCategory (issues (sanitizeReport ungroundedReport (Some "")))
    = ["Terminology"]
  ∧ map severity (issues (sanitizeReport ungroundedReport (Some "")))
    = ["Major"]
  ∧ map glossaryTermId (issues (sanitizeReport ungroundedReport (Some "")))
    = [Some "TERM-999"].
Proof.
  split; [|repeat split].
  apply ungroundedIssue_not_grounded. vm_compute. reflexivity.
Qed.

Lemma sanitizeReport_without_glossary_witness :
  sanitizeReport ungroundedReport (Some "") = ungroundedReport.
Proof.
  apply (sanitizeReport_without_glossary ungroundedReport (Some "")).
  right. reflexivity.
Defined.

(** ** Verifier merge *)

Section VerifierProperties.

Variable toLowerCase : string → string.

Lemma refineSeverity_id verdict issue :
  issue_id (refineSeverity verdict issue) = issue_id issue.
Proof.
  unfold refineSeverity. destruct (refinedSeverity verdict) as [s|]; [|reflexivity].
  now destruct (Js.nonEmpty s).
Qed.

Lemma refineRationale_id verdict issue :
  issue_id (refineRationale verdict issue) = issue_id issue.
Proof.
  unfold refineRationale. destruct (refinedRationale verdict) as [s|]; [|reflexivity].
  now destruct (Js.nonEmpty s).
Qed.

(** Whatever the merge keeps has the id and the category it came with. *)
Lemma mergeIssue_keeps_id_category m issue issue' :
  mergeIssue toLowerCase m issue = Some issue' →
  issue_id issue' = issue_id issue ∧ issueCategory issue' = issueCategory issue.
Proof.
  unfold mergeIssue. destruct (m !! issue_id issue) as [verdict|].
  - destruct (isValid verdict); simpl.
    + intros [= <-]. rewrite refineRationale_id, refineSeverity_id. split; [reflexivity|].
      unfold refineRationale, refineSeverity.
      destruct (refinedSeverity verdict) as [s|], (refinedRationale verdict) as [r|];
        try destruct (Js.nonEmpty s); try destruct (Js.nonEmpty r); reflexivity.
    + destruct (isStyleOrFormatting issue && negb (isHallucination toLowerCase verdict));
        [|discriminate].
      now intros [= <-].
  - now intros [= <-].
Qed.

(** With one verdict per id, the map returns the verdict of the list. *)
Lemma verifiedIssuesMap_lookup (vs : list Verdict) (v : Verdict) :
  NoDup (map verdict_id vs) → v ∈ vs →
  verifiedIssuesMap (mkVerification (Some vs)) !! verdict_id v = Some v.
Proof.
  unfold verifiedIssuesMap. simpl.
  generalize (∅ : gmap string Verdict).
  induction vs as [|w vs IH]; intros m Hnd Hin; simpl.
  - now apply elem_of_nil in Hin.
  - apply NoDup_cons in Hnd as [Hfresh Hnd].
    apply elem_of_cons in Hin as [-> | Hin]; [|now apply IH].
    clear IH. revert m Hfresh.
    induction vs as [|u vs IH]; intros m Hfresh; simpl.
    + apply lookup_insert_eq.
    + apply NoDup_cons in Hnd as [_ Hnd].
      rewrite insert_insert_ne.
      * apply IH; [assumption|]. intros Hin. apply Hfresh. now right.
      * intros Heq. apply Hfresh. rewrite Heq. now left.
Qed.



End VerifierProperties.



Example mergeVerdicts_sample :
  mergeVerdicts asciiLower sampleVerification sampleIssues = [rescue styleIssue].
Proof. vm_compute. reflexivity. Qed.

(** ** Retry, fallback and the pipelines *)

Section RetryProperties.

Context {T : Type}.
Variable fn : M T.

(** A value returned by the retry loop was returned by one attempt. *)
Lemma retryWithBackoff_returns retries : ∀ delay h r h',
  retryWithBackoff fn retries delay h = (inr r, h') →
  ∃ h0, fn h0 = (inr r, h').
Proof.
  induction retries as [|retries IH]; intros delay h r h' Hrun;
    simpl in Hrun; unfold tryCatch in Hrun;
    destruct (fn h) as [[e|a] h1] eqn:Hfn.
  - discriminate.
  - inversion Hrun; subst. eauto.
  - unfold_m. apply IH in Hrun. exact Hrun.
  - inversion Hrun; subst. eauto.
Qed.

(** An attempt that succeeds ends the loop at once. *)
Lemma retryWithBackoff_first_success retries delay h r h' :
  fn h = (inr r, h') → retryWithBackoff fn retries delay h = (inr r, h').
Proof.
  intros Hfn. destruct retries; simpl; unfold tryCatch; now rewrite Hfn.
Qed.

(** Three failing attempts, 1000 ms and then 2000 ms apart, exhaust the
    default budget; the third exception is the one propagated. *)
Lemma retryWithBackoff_exhausted h0 e1 h1 e2 h2 e3 h3 :
  fn h0 = (inl e1, h1) →
  fn (h1 ++ [EvSleep 1000%N]) = (inl e2, h2) →
  fn (h2 ++ [EvSleep 2000%N]) = (inl e3, h3) →
  retryWithBackoff fn defaultRetries defaultDelay h0 = (inl e3, h3).
Proof.
  intros H1 H2 H3. unfold defaultRetries, defaultDelay. simpl.
  change (1000 * 2)%N with 2000%N. unfold_m. now rewrite H1, H2, H3.
Qed.

(** The loop fails only after three failed attempts with exactly these
    delays in between. *)
Lemma retryWithBackoff_fails_inv h0 e h' :
  retryWithBackoff fn defaultRetries defaultDelay h0 = (inl e, h') →
  ∃ e1 h1 e2 h2,
    fn h0 = (inl e1, h1)
    ∧ fn (h1 ++ [EvSleep 1000%N]) = (inl e2, h2)
    ∧ fn (h2 ++ [EvSleep 2000%N]) = (inl e, h').
Proof.
  unfold defaultRetries, defaultDelay. simpl.
  change (1000 * 2)%N with 2000%N. unfold_m. intros Hrun.
  destruct (fn h0) as [[e1|a1] h1] eqn:H1; [|discriminate].
  destruct (fn (h1 ++ [EvSleep 1000%N])) as [[e2|a2] h2] eqn:H2; [|discriminate].
  destruct (fn (h2 ++ [EvSleep 2000%N])) as [[e3|a3] h3] eqn:H3; [|discriminate].
  inversion Hrun; subst. exists e1, h1, e2, h2. auto.
Qed.

End RetryProperties.

Section PipelineProperties.

Variable toLowerCase : string → string.
Variable enforceScoreConsistency : list QaIssue → Scores → Scores.
Variable determineStrictQuality : list QaIssue → string.
Variable fallback : Binding.
Variable env : Env.

(** C6: when the verifier cannot be reached on the primary model and the
    fallback attempt fails as well, or the response obtained has an
    empty body, or it does not parse, [verifyIssues] returns normally
    and returns the report it was given, issue list included. *)
Theorem verifyIssues_failure_returns_input
    (initialReport : ScreenshotReport) (h : History) :
  let h1 := h ++ [EvGenerate Verification LLM_MODEL_ID] in
  (∃ e, verifierBackend env h LLM_MODEL_ID = Rejects e
        ∧ match fallback with
          | Bound model =>
              (∃ e', verifierBackend env h1 model = Rejects e')
              ∨ verifierBackend env h1 model = Resolves Empty
              ∨ verifierBackend env h1 model = Resolves Malformed
          | Unbound _ => True
          end)
  ∨ verifierBackend env h LLM_MODEL_ID = Resolves Empty
  ∨ verifierBackend env h LLM_MODEL_ID = Resolves Malformed →
  ∃ h', verifyIssues toLowerCase fallback env initialReport h
        = (inr initialReport, h').
Proof.
  intros h1 Hfail. subst h1. unfold verifyIssues, verifierResponse. unfold_m.
  destruct Hfail as [(e & -> & Hfb) | [-> | ->]]; simpl; [|eauto..].
  destruct fallback as [model|name]; simpl; [|eauto].
  destruct Hfb as [(e' & ->) | [-> | ->]]; simpl; eauto.
Qed.

(** The verifier stage never throws, and what it returns is the input
    report, possibly with its issue list replaced by the merged one. *)
Lemma verifyIssues_total (initialReport : ScreenshotReport) (h : History) :
  ∃ r h', verifyIssues toLowerCase fallback env initialReport h = (inr r, h')
    ∧ (r = initialReport
       ∨ ∃ result,
           r = set_issues (mergeVerdicts toLowerCase result (issues initialReport))
                 initialReport).
Proof.
  unfold verifyIssues, verifierResponse. unfold_m.
  destruct (verifierBackend env h LLM_MODEL_ID) as [e|[| |result]]; simpl;
    eauto 6.
  destruct fallback as [model|name]; simpl; [|eauto].
  destruct (verifierBackend env _ model) as [e'|[| |result]]; simpl; eauto 6.
Qed.

(** When the primary call answers with verdicts, the stage returns the
    report with the merged issue list. *)
Lemma verifyIssues_merges (initialReport : ScreenshotReport) (h : History)
    (result : VerificationResult) :
  verifierBackend env h LLM_MODEL_ID = Resolves (Parses result) →
  verifyIssues toLowerCase fallback env initialReport h
  = (inr (set_issues (mergeVerdicts toLowerCase result (issues initialReport))
            initialReport),
     h ++ [EvGenerate Verification LLM_MODEL_ID]).
Proof.
  intros Hb. unfold verifyIssues, verifierResponse. unfold_m. now rewrite Hb.
Qed.

Lemma serverVerifyIssues_total (initialReport : ScreenshotReport) (h : History) :
  ∃ r h', serverVerifyIssues toLowerCase env initialReport h = (inr r, h')
    ∧ overall r = overall initialReport
    ∧ screenshotId r = screenshotId initialReport
    ∧ summary r = summary initialReport.
Proof.
  unfold serverVerifyIssues. unfold_m.
  destruct (verifierBackend env h serverModel) as [e|[| |result]]; simpl;
    eauto 6.
Qed.

Variable apiKey : option string.
Variable payload : LlmRequestPayload.

(** The functions of the two pipelines at the parameters of this
    section. *)
Local Abbreviation clientAttempt :=
  (runAnalysis toLowerCase enforceScoreConsistency determineStrictQuality
     fallback env payload).
Local Abbreviation clientPipeline :=
  (callTranslationQaLLM toLowerCase enforceScoreConsistency
     determineStrictQuality fallback env apiKey payload).
Local Abbreviation clientReconcile :=
  (reconcile enforceScoreConsistency determineStrictQuality payload).
Local Abbreviation serverPipeline :=
  (analyzeScreenshot toLowerCase env apiKey payload).

(** A report returned by one analysis attempt is the reconciled form of
    a report parsed from a backend response, after the verifier stage. *)
Lemma runAnalysis_returns modelId h r h' :
  clientAttempt modelId h = (inr r, h') →
  ∃ hist parsed verified,
    analysisBackend env hist modelId = Resolves (Parses parsed)
    ∧ r = clientReconcile verified
    ∧ (verified = polyfill payload parsed
       ∨ ∃ result,
           verified = set_issues
                        (mergeVerdicts toLowerCase result
                           (issues (polyfill payload parsed)))
                        (polyfill payload parsed)).
Proof.
  unfold runAnalysis, promiseAll2, processImageUrl. unfold_m.
  destruct (fetchDataUrl env h _) as [[mime1 d1]|];
    destruct (fetchDataUrl env _ _) as [[mime2 d2]|]; try discriminate.
  match goal with
  | |- context [analysisBackend env ?hist modelId] =>
      destruct (analysisBackend env hist modelId) as [e|[| |parsed]] eqn:Hb
  end; try discriminate.
  destruct (0 <? length (issues (polyfill payload parsed)))%nat.
  - match goal with
    | |- context [verifyIssues _ _ _ ?init ?hv] =>
        destruct (verifyIssues_total init hv) as (v & hv' & -> & Hv)
    end.
    intros [= <- <-]. eauto 8.
  - intros [= <- <-]. eauto 8.
Qed.

(** A report returned by the client pipeline was returned by one
    analysis attempt, on the primary model or on the model the fallback
    identifier is bound to. *)
Lemma callTranslationQaLLM_returns h r h' :
  clientPipeline h = (inr r, h') →
  ∃ modelId h0,
    clientAttempt modelId h0 = (inr r, h')
    ∧ (modelId = LLM_MODEL_ID ∨ fallback = Bound modelId).
Proof.
  unfold callTranslationQaLLM. destruct (Js.truthy apiKey); [|discriminate].
  unfold tryCatch at 1.
  destruct (retryWithBackoff (clientAttempt LLM_MODEL_ID) _ _ h)
    as [[e|a] h1] eqn:Hprimary.
  - intros (h0 & Hrun)%retryWithBackoff_returns.
    destruct fallback as [modelId|name]; unfold_m; simpl in Hrun;
      [|discriminate]. eauto.
  - intros [= <- <-]. apply retryWithBackoff_returns in Hprimary as (h0 & Hrun).
    eauto.
Qed.

Lemma mergeIssue_suggestions m issue issue' :
  mergeIssue toLowerCase m issue = Some issue' →
  suggestionsTarget issue' = suggestionsTarget issue.
Proof.
  unfold mergeIssue. destruct (m !! issue_id issue) as [verdict|].
  - destruct (isValid verdict); simpl.
    + intros [= <-]. unfold refineRationale, refineSeverity.
      destruct (refinedSeverity verdict) as [s|], (refinedRationale verdict) as [t|];
        try destruct (Js.nonEmpty s); try destruct (Js.nonEmpty t); reflexivity.
    + destruct (isStyleOrFormatting issue && negb (isHallucination toLowerCase verdict));
        [|discriminate].
      now intros [= <-].
  - now intros [= <-].
Qed.

Lemma sanitizeIssue_suggestions ids issue :
  suggestionsTarget (sanitizeIssue ids issue) = suggestionsTarget issue
  ∧ issue_id (sanitizeIssue ids issue) = issue_id issue.
Proof.
  unfold sanitizeIssue.
  destruct (String.eqb (issueCategory issue) "Terminology"); [|now split].
  now destruct (isValidTermId ids (glossaryTermId issue)).
Qed.

Lemma sanitizeReport_issues report g :
  issues (sanitizeReport report g) = issues report
  ∨ ∃ ids, issues (sanitizeReport report g)
           = map (sanitizeIssue ids) (issues report).
Proof.
  unfold sanitizeReport. destruct g as [g|]; [|now left].
  destruct (Js.nonEmpty g); simpl; [|now left].
  right. exists (validIds g).
  now destruct (length _ =? 0)%nat.
Qed.

Lemma sanitizeReport_qualityLevel report g :
  qualityLevel (overall (sanitizeReport report g)) = qualityLevel (overall report).
Proof.
  unfold sanitizeReport. destruct g as [g|]; [|reflexivity].
  destruct (Js.nonEmpty g); simpl; [|reflexivity].
  now destruct (length _ =? 0)%nat.
Qed.

Lemma sanitizeReport_scores report g :
  scores (overall (sanitizeReport report g)) = scores (overall report)
  ∨ scores (overall (sanitizeReport report g))
    = set_terminology 5%Q (scores (overall report)).
Proof.
  unfold sanitizeReport. destruct g as [g|]; [|now left].
  destruct (Js.nonEmpty g); simpl; [|now left].
  destruct (length _ =? 0)%nat; [now right | now left].
Qed.

(** Each issue of a returned report descends from an issue of a parsed
    backend response, has its id and still carries its suggestions. *)
Lemma returned_issue_provenance h r h' issue :
  clientPipeline h = (inr r, h') → issue ∈ issues r →
  ∃ hist modelId parsed issue0,
    analysisBackend env hist modelId = Resolves (Parses parsed)
    ∧ issue0 ∈ default [] (p_issues parsed)
    ∧ issue_id issue = issue_id issue0
    ∧ suggestionsTarget issue = suggestionsTarget issue0.
Proof.
  intros (modelId & h0 & Hrun & _)%callTranslationQaLLM_returns Hin.
  apply runAnalysis_returns in Hrun as (hist & parsed & verified & Hb & -> & Hv).
  exists hist, modelId, parsed.
  assert (Hver : ∃ i1, i1 ∈ issues verified
                       ∧ issue_id issue = issue_id i1
                       ∧ suggestionsTarget issue = suggestionsTarget i1).
  { change (issues (clientReconcile verified))
      with (issues (sanitizeReport verified (glossaryText payload))) in Hin.
    destruct (sanitizeReport_issues verified (glossaryText payload))
      as [Heq | (ids & Heq)]; rewrite Heq in Hin.
    - eauto.
    - apply list_elem_of_fmap in Hin as (i1 & -> & Hi1).
      exists i1. destruct (sanitizeIssue_suggestions ids i1). auto. }
  destruct Hver as (i1 & Hi1 & -> & ->).
  destruct Hv as [-> | (result & ->)].
  - eauto.
  - simpl in Hi1. unfold mergeVerdicts in Hi1.
    apply list_elem_of_omap in Hi1 as (i0 & Hi0 & Hm).
    exists i0. split; [assumption|]. split; [assumption|].
    split.
    + now apply mergeIssue_keeps_id_category in Hm.
    + now apply mergeIssue_suggestions in Hm.
Qed.

(** C1 (amended): every issue of a returned report carries, unchanged,
    the suggestions the backend returned for the issue with its id; so
    if the backend never answers with an issue whose suggestions are
    empty, no issue of a returned report has empty suggestions. *)
Theorem returned_suggestions_nonempty_if_backend_nonempty
    (h : History) (r : ScreenshotReport) (h' : History) :
  (∀ hist modelId parsed issue,
      analysisBackend env hist modelId = Resolves (Parses parsed) →
      issue ∈ default [] (p_issues parsed) → suggestionsTarget issue ≠ []) →
  clientPipeline h = (inr r, h') →
  ∀ issue, issue ∈ issues r →
    suggestionsTarget issue ≠ []
    ∧ ∃ hist modelId parsed issue0,
        analysisBackend env hist modelId = Resolves (Parses parsed)
        ∧ issue0 ∈ default [] (p_issues parsed)
        ∧ issue_id issue = issue_id issue0
        ∧ suggestionsTarget issue = suggestionsTarget issue0.
Proof.
  intros Hbackend Hrun issue Hin.
  destruct (returned_issue_provenance h r h' issue Hrun Hin)
    as (hist & modelId & parsed & issue0 & Hb & Hin0 & Hid & Hs).
  split.
  - rewrite Hs. exact (Hbackend hist modelId parsed issue0 Hb Hin0).
  - eauto 8.
Qed.

(** A report returned by the server function is the sanitized form of a
    parsed backend response after the verifier stage; nothing else is
    applied to it. *)
Lemma analyzeScreenshot_returns h r h' :
  serverPipeline h = (inr r, h') →
  ∃ hist parsed verified,
    analysisBackend env hist serverModel = Resolves (Parses parsed)
    ∧ overall verified = p_overall parsed
    ∧ r = sanitizeReport verified (glossaryText payload).
Proof.
  unfold analyzeScreenshot. destruct (Js.truthy apiKey); [|discriminate].
  intros (h0 & Hrun)%retryWithBackoff_returns. revert Hrun.
  unfold serverAttempt. unfold_m.
  destruct (analysisBackend env h0 serverModel) as [e|[| |parsed]] eqn:Hb;
    try discriminate.
  destruct (0 <? length (issues (polyfill payload parsed)))%nat.
  - match goal with
    | |- context [serverVerifyIssues _ _ ?init ?hv] =>
        destruct (serverVerifyIssues_total init hv)
          as (v & hv' & -> & Hov & _)
    end.
    intros [= <- <-]. exists h0, parsed, v. auto.
  - intros [= <- <-]. exists h0, parsed, (polyfill payload parsed). auto.
Qed.

(** What the three reconciliation steps leave in the report. *)
Lemma reconcile_fields verified :
  issues (clientReconcile verified)
  = issues (sanitizeReport verified (glossaryText payload))
  ∧ scores (overall (clientReconcile verified))
    = enforceScoreConsistency
        (issues (sanitizeReport verified (glossaryText payload)))
        (scores (overall (sanitizeReport verified (glossaryText payload))))
  ∧ qualityLevel (overall (clientReconcile verified))
    = determineStrictQuality (issues (clientReconcile verified)).
Proof. repeat split. Qed.

(** *** The fallback branch of the client *)

(** Once the primary budget is spent, the client runs the retry loop on
    the thunk that reads the fallback identifier and starts over. *)
Lemma callTranslationQaLLM_after_primary h e h1 :
  Js.truthy apiKey = true →
  retryWithBackoff (clientAttempt LLM_MODEL_ID) defaultRetries defaultDelay h
  = (inl e, h1) →
  clientPipeline h
  = retryWithBackoff (model ← readIdent fallback; clientAttempt model)
      defaultRetries defaultDelay h1.
Proof.
  intros Hkey Hprimary. unfold callTranslationQaLLM. rewrite Hkey.
  unfold tryCatch at 1. now rewrite Hprimary.
Qed.

(** With the identifier unbound, every fallback attempt throws before
    any request is made: after the primary budget the trace only grows
    by the two backoff delays, and the caller gets the reference error. *)
Lemma callTranslationQaLLM_unbound_fallback name h e h1 :
  fallback = Unbound name →
  Js.truthy apiKey = true →
  retryWithBackoff (clientAttempt LLM_MODEL_ID) defaultRetries defaultDelay h
  = (inl e, h1) →
  clientPipeline h
  = (inl (ReferenceError name), (h1 ++ [EvSleep 1000%N]) ++ [EvSleep 2000%N]).
Proof.
  intros Hfb Hkey Hprimary.
  rewrite (callTranslationQaLLM_after_primary h e h1 Hkey Hprimary), Hfb.
  apply (retryWithBackoff_exhausted _ _ (ReferenceError name) h1
           (ReferenceError name) (h1 ++ [EvSleep 1000%N]));
    reflexivity.
Qed.

(** With the identifier bound to a model id, the whole retried call is
    repeated against that model, and an error reaches the caller only
    after three failed attempts on each model, 1000 ms and 2000 ms
    apart. *)
Lemma callTranslationQaLLM_bound_fallback model h e h' :
  fallback = Bound model →
  Js.truthy apiKey = true →
  clientPipeline h = (inl e, h') →
  ∃ p1 a1 p2 a2 p3 a3 f1 b1 f2 b2,
    clientAttempt LLM_MODEL_ID h = (inl p1, a1)
    ∧ clientAttempt LLM_MODEL_ID (a1 ++ [EvSleep 1000%N]) = (inl p2, a2)
    ∧ clientAttempt LLM_MODEL_ID (a2 ++ [EvSleep 2000%N]) = (inl p3, a3)
    ∧ clientAttempt model a3 = (inl f1, b1)
    ∧ clientAttempt model (b1 ++ [EvSleep 1000%N]) = (inl f2, b2)
    ∧ clientAttempt model (b2 ++ [EvSleep 2000%N]) = (inl e, h').
Proof.
  intros Hfb Hkey Hrun.
  destruct (retryWithBackoff (clientAttempt LLM_MODEL_ID)
              defaultRetries defaultDelay h) as [[p3|r] a3] eqn:Hprimary.
  - rewrite (callTranslationQaLLM_after_primary h p3 a3 Hkey Hprimary) in Hrun.
    apply retryWithBackoff_fails_inv in Hprimary
      as (p1 & a1 & p2 & a2 & Hp1 & Hp2 & Hp3).
    apply retryWithBackoff_fails_inv in Hrun
      as (f1 & b1 & f2 & b2 & Hf1 & Hf2 & Hf3).
    exists p1, a1, p2, a2, p3, a3, f1, b1, f2, b2.
    rewrite Hfb in *. unfold_m. simpl in Hf1, Hf2, Hf3.
    repeat split; assumption.
  - unfold callTranslationQaLLM in Hrun. rewrite Hkey in Hrun.
    unfold tryCatch at 1 in Hrun. rewrite Hprimary in Hrun. discriminate.
Qed.

End PipelineProperties.

(** ** Server twin against client pipeline *)

Section Equivalence.

Variable toLowerCase : string → string.
Variable enforceScoreConsistency : list QaIssue → Scores → Scores.
Variable determineStrictQuality : list QaIssue → string.
Variable fallback : Binding.

Lemma otherLabel_differs l : otherLabel l ≠ l.
Proof.
  unfold otherLabel. destruct (String.eqb l "Good") eqn:H.
  - apply String.eqb_eq in H. subst l. discriminate.
  - apply String.eqb_neq in H. congruence.
Qed.

(** C10: the two variants are not output-equivalent.  After the verifier
    stage the server applies the hallucination guard and nothing else,
    so it returns the quality label of the model's response; the client
    also replaces the scores by the enforced ones and the label by the
    derived strict level; and on one and the same backend response the
    two return different reports.  (The only score the server may change
    is the terminology score, which the guard itself sets to 5.) *)
Theorem server_and_client_outputs_differ :
  (∀ env apiKey payload h r h',
      analyzeScreenshot toLowerCase env apiKey payload h = (inr r, h') →
      ∃ hist parsed verified,
        analysisBackend env hist serverModel = Resolves (Parses parsed)
        ∧ overall verified = p_overall parsed
        ∧ r = sanitizeReport verified (glossaryText payload)
        ∧ qualityLevel (overall r) = qualityLevel (p_overall parsed)
        ∧ (scores (overall r) = scores (p_overall parsed)
           ∨ scores (overall r)
             = set_terminology 5%Q (scores (p_overall parsed))))
  ∧ (∀ env apiKey payload h r h',
      callTranslationQaLLM toLowerCase enforceScoreConsistency
        determineStrictQuality fallback env apiKey payload h = (inr r, h') →
      ∃ verified,
        issues r = issues (sanitizeReport verified (glossaryText payload))
        ∧ scores (overall r)
          = enforceScoreConsistency
              (issues (sanitizeReport verified (glossaryText payload)))
              (scores (overall (sanitizeReport verified (glossaryText payload))))
        ∧ qualityLevel (overall r) = determineStrictQuality (issues r))
  ∧ (∃ parsed env apiKey payload rs hs rc hc,
      (∀ hist model, analysisBackend env hist model = Resolves (Parses parsed))
      ∧ analyzeScreenshot toLowerCase env apiKey payload [] = (inr rs, hs)
      ∧ callTranslationQaLLM toLowerCase enforceScoreConsistency
          determineStrictQuality fallback env apiKey payload [] = (inr rc, hc)
      ∧ qualityLevel (overall rs) = qualityLevel (p_overall parsed)
      ∧ qualityLevel (overall rc) ≠ qualityLevel (p_overall parsed)
      ∧ rs ≠ rc).
Proof.
  split; [|split].
  - intros env apiKey payload h r h' Hrun.
    apply analyzeScreenshot_returns in Hrun
      as (hist & parsed & verified & Hb & Hov & ->).
    exists hist, parsed, verified.
    split; [assumption|]. split; [assumption|]. split; [reflexivity|].
    split.
    + now rewrite sanitizeReport_qualityLevel, Hov.
    + rewrite <- Hov. apply sanitizeReport_scores.
  - intros env apiKey payload h r h' Hrun.
    apply callTranslationQaLLM_returns in Hrun as (modelId & h0 & Hrun & _).
    apply runAnalysis_returns in Hrun as (hist & parsed & verified & _ & -> & _).
    exists verified. apply reconcile_fields.
  - set (label := otherLabel (determineStrictQuality [])).
    exists (labelledParsed label), (constantEnv (labelledParsed label)),
      (Some "key"), samplePayload.
    eexists _, _, _, _.
    split; [reflexivity|].
    split; [reflexivity|].
    split; [reflexivity|].
    split; [reflexivity|].
    assert (Hne : determineStrictQuality [] ≠ label)
      by (intros Heq; exact (otherLabel_differs _ (eq_sym Heq))).
    split; [exact Hne|].
    intros Heq. apply Hne. symmetry.
    exact (f_equal (fun r => qualityLevel (overall r)) Heq).
Qed.

End Equivalence.

(** ** The pipelines on concrete backends *)

(** C5: llmService.ts as written, with every analysis call rejected.
    The three primary attempts are made 1000 ms and 2000 ms apart; then
    each fallback attempt throws the reference error for
    [LLM_FALLBACK_MODEL_ID] before anything is fetched or requested, so
    no call is ever made against the fallback model: the trace ends with
    the two backoff delays and the caller receives the reference error. *)
Theorem callTranslationQaLLM_never_reaches_fallback_model :
  callTranslationQaLLM asciiLower sampleEnforce sampleDetermine
    llmService_LLM_FALLBACK_MODEL_ID rejectingEnv (Some "key") samplePayload []
  = (inl (ReferenceError "LLM_FALLBACK_MODEL_ID"),
     failedAttempt ++ [EvSleep 1000%N]
     ++ failedAttempt ++ [EvSleep 2000%N]
     ++ failedAttempt
     ++ [EvSleep 1000%N; EvSleep 2000%N]).
Proof. vm_compute. reflexivity. Qed.

(** With the import in place the same run does reach the fallback model,
    with a budget of its own. *)
Example callTranslationQaLLM_with_import :
  callTranslationQaLLM asciiLower sampleEnforce sampleDetermine
    (Bound constants_LLM_FALLBACK_MODEL_ID) rejectingEnv (Some "key")
    samplePayload []
  = (inl (BackendError "503"),
     failedAttempt ++ [EvSleep 1000%N]
     ++ failedAttempt ++ [EvSleep 2000%N]
     ++ failedAttempt
     ++ [EvFetch "blob:en"; EvFetch "blob:de";
         EvGenerate Analysis constants_LLM_FALLBACK_MODEL_ID; EvSleep 1000%N;
         EvFetch "blob:en"; EvFetch "blob:de";
         EvGenerate Analysis constants_LLM_FALLBACK_MODEL_ID; EvSleep 2000%N;
         EvFetch "blob:en"; EvFetch "blob:de";
         EvGenerate Analysis constants_LLM_FALLBACK_MODEL_ID]).
Proof. vm_compute. reflexivity. Qed.

(** C1 as stated fails: the backend answers with an issue whose
    suggestions are empty, the pipeline returns successfully, and the
    issue is in the returned report with its suggestions still empty. *)
Lemma pipeline_returns_empty_suggestions :
  ∃ r h',
    callTranslationQaLLM asciiLower sampleEnforce sampleDetermine
      llmService_LLM_FALLBACK_MODEL_ID bareEnv (Some "key") samplePayload []
    = (inr r, h')
    ∧ issues r = [bareIssue]
    ∧ suggestionsTarget bareIssue = [].
Proof. eexists _, _. vm_compute. repeat split. Qed.

(** The same failure whatever the two functions of reportGenerator.ts
    are, and however the fallback identifier is bound. *)
Lemma empty_suggestions_survive toLowerCase enforce determine fallback :
  ∃ r h',
    callTranslationQaLLM toLowerCase enforce determine fallback bareEnv
      (Some "key") samplePayload [] = (inr r, h')
    ∧ issues r = [bareIssue].
Proof. eexists _, _. split; reflexivity. Qed.

Lemma sampleParsed_suggestions hist modelId parsed issue :
  analysisBackend (constantEnv sampleParsed) hist modelId
  = Resolves (Parses parsed) →
  issue ∈ default [] (p_issues parsed) → suggestionsTarget issue ≠ [].
Proof.
  intros [= <-] Hin. simpl in Hin.
  apply elem_of_cons in Hin as [-> | Hin]; [discriminate|].
  apply list_elem_of_singleton in Hin as ->. discriminate.
Qed.

Lemma returned_suggestions_nonempty_if_backend_nonempty_witness :
  Forall (fun issue => suggestionsTarget issue ≠ [])
    (issues (mkReport (Some "settings.png")
               (mkOverall "Critical" sampleScores
                  "Account settings screen" "One wrong term")
               sampleIssues sampleSummary)).
Proof.
  apply Forall_forall. intros issue Hin.
  apply (returned_suggestions_nonempty_if_backend_nonempty asciiLower
           sampleEnforce sampleDetermine llmService_LLM_FALLBACK_MODEL_ID
           (constantEnv sampleParsed) (Some "key") samplePayload []
           (mkReport (Some "settings.png")
              (mkOverall "Critical" sampleScores
                 "Account settings screen" "One wrong term")
              sampleIssues sampleSummary)
           (failedAttempt ++ [EvGenerate Verification LLM_MODEL_ID])
           sampleParsed_suggestions eq_refl issue Hin).
Defined.

Lemma verifyIssues_failure_returns_input_witness :
  ∃ h', verifyIssues asciiLower (Bound constants_LLM_FALLBACK_MODEL_ID)
          rejectingEnv ungroundedReport [] = (inr ungroundedReport, h').
Proof.
  apply (verifyIssues_failure_returns_input asciiLower
           (Bound constants_LLM_FALLBACK_MODEL_ID) rejectingEnv
           ungroundedReport []).
  left. exists (BackendError "503"). split; [reflexivity|].
  left. exists (BackendError "503"). reflexivity.
Defined.

Lemma server_and_client_outputs_differ_witness :
  ∃ hist parsed verified,
    analysisBackend (constantEnv (labelledParsed "Average")) hist serverModel
    = Resolves (Parses parsed)
    ∧ overall verified = p_overall parsed
    ∧ labelledReport "Average" = sanitizeReport verified None
    ∧ qualityLevel (overall (labelledReport "Average"))
      = qualityLevel (p_overall parsed)
    ∧ (scores (overall (labelledReport "Average")) = scores (p_overall parsed)
       ∨ scores (overall (labelledReport "Average"))
         = set_terminology 5%Q (scores (p_overall parsed))).
Proof.
  apply (proj1 (server_and_client_outputs_differ asciiLower sampleEnforce
                  sampleDetermine llmService_LLM_FALLBACK_MODEL_ID)
           (constantEnv (labelledParsed "Average")) (Some "key") samplePayload
           [] (labelledReport "Average") [EvGenerate Analysis serverModel]).
  vm_compute. reflexivity.
Defined.

(** The two variants on the backend that always answers "Average" with
    no issues: the server keeps the label, the client derives its own. *)
Example server_keeps_label_client_overwrites :
  fst (analyzeScreenshot asciiLower (constantEnv (labelledParsed "Average"))
         (Some "key") samplePayload [])
  = inr (labelledReport "Average")
  ∧ fst (callTranslationQaLLM asciiLower sampleEnforce sampleDetermine
           llmService_LLM_FALLBACK_MODEL_ID
           (constantEnv (labelledParsed "Average")) (Some "key")
           samplePayload [])
    = inr (labelledReport "Good").
Proof. split; vm_compute; reflexivity. Qed.

(** ** Scene classifier *)

Lemma dropPrefix_startsWith s k :
  Js.startsWith s k = true ↔ ∃ post, s = k +:+ post.
Proof.
  unfold Js.startsWith. split.
  - destruct (Js.dropPrefix k s) as [r|] eqn:H; [|discriminate].
    intros _. exists r. now apply dropPrefix_Some.
  - intros (post & ->). now rewrite dropPrefix_append.
Qed.

(** [includes] is the substring test. *)
Lemma includes_spec s k : Js.includes s k = true ↔ occursIn k s.
Proof.
  unfold occursIn. induction s as [|c s IH]; simpl.
  - rewrite orb_false_r, dropPrefix_startsWith. split.
    + intros (post & ->). exists "", post. reflexivity.
    + intros ([|a pre] & post & H); [eauto | discriminate].
  - rewrite orb_true_iff, dropPrefix_startsWith, IH. split.
    + intros [(post & ->) | (pre & post & ->)].
      * exists "", post. reflexivity.
      * exists (String c pre), post. reflexivity.
    + intros ([|a pre] & post & H); str_simpl.
      * left. eauto.
      * right. inversion H; subst. eauto.
Qed.

(** The keywords counted are those of the list that occur in the text. *)
Lemma keywordHits_counts lower keywords kw :
  kw ∈ List.filter (fun k => Js.includes lower k) keywords
  ↔ kw ∈ keywords ∧ occursIn kw lower.
Proof.
  rewrite !list_elem_of_In, filter_In, includes_spec. reflexivity.
Qed.

Section SceneLoop.

Variable lower : string.

(** Invariant of the loop: either the leader is still the initial one
    and nothing seen has beaten its score, or the leader is the first
    entry that reached the highest count seen. *)
Lemma sceneLoop_spec entries : ∀ best score,
  (sceneLoop lower entries (best, score) = (best, score)
   ∧ ∀ s k, (s, k) ∈ entries → s ≠ generic → (keywordHits lower k ≤ score)%nat)
  ∨ ∃ earlier winner keywords later,
      entries = earlier ++ (winner, keywords) :: later
      ∧ sceneLoop lower entries (best, score)
        = (winner, keywordHits lower keywords)
      ∧ winner ≠ generic
      ∧ (score < keywordHits lower keywords)%nat
      ∧ (∀ s k, (s, k) ∈ earlier → s ≠ generic →
                (keywordHits lower k < keywordHits lower keywords)%nat)
      ∧ (∀ s k, (s, k) ∈ later → s ≠ generic →
                (keywordHits lower k ≤ keywordHits lower keywords)%nat).
Proof.
  induction entries as [|[scene kws] entries IH]; intros best score.
  - left. split; [reflexivity|]. intros s k Hin. now apply elem_of_nil in Hin.
  - unfold sceneLoop. simpl. fold (sceneLoop lower entries).
    destruct (decide (scene = generic)) as [Hgen | Hgen].
    + destruct (IH best score)
        as [[Hkeep Hle] | (earlier & w & kw & later & -> & Hrun & Hw & Hlt & Hpre & Hpost)].
      * left. split; [assumption|].
        intros s k [[= -> ->] | Hin]%elem_of_cons Hs; [contradiction | eauto].
      * right. exists ((scene, kws) :: earlier), w, kw, later.
        repeat split; try assumption.
        intros s k [[= -> ->] | Hin]%elem_of_cons Hs; [contradiction | eauto].
    + destruct (score <? keywordHits lower kws)%nat eqn:Hcmp; simpl.
      * apply Nat.ltb_lt in Hcmp. right.
        destruct (IH scene (keywordHits lower kws))
          as [[Hkeep Hle] | (earlier & w & kw & later & -> & Hrun & Hw & Hlt & Hpre & Hpost)].
        -- exists [], scene, kws, entries. repeat split; try assumption.
           intros s k Hin. now apply elem_of_nil in Hin.
        -- exists ((scene, kws) :: earlier), w, kw, later.
           repeat split; try assumption; [lia|].
           intros s k [[= -> ->] | Hin]%elem_of_cons Hs; [assumption | eauto].
      * apply Nat.ltb_ge in Hcmp.
        destruct (IH best score)
          as [[Hkeep Hle] | (earlier & w & kw & later & -> & Hrun & Hw & Hlt & Hpre & Hpost)].
        -- left. split; [assumption|].
           intros s k [[= -> ->] | Hin]%elem_of_cons Hs; [assumption | eauto].
        -- right. exists ((scene, kws) :: earlier), w, kw, later.
           repeat split; try assumption.
           intros s k [[= -> ->] | Hin]%elem_of_cons Hs; [lia | eauto].
Qed.

End SceneLoop.

(** The code's count is the number of keywords that occur in the text,
    and that number is unique. *)
Lemma keywordHits_occurringCount lower keywords :
  occurringCount lower keywords (keywordHits lower keywords).
Proof.
  unfold keywordHits. induction keywords as [|kw keywords IH]; [constructor|].
  simpl. destruct (Js.includes lower kw) eqn:Hkw; simpl.
  - constructor; [now apply includes_spec | exact IH].
  - constructor; [|exact IH]. rewrite <- includes_spec. congruence.
Qed.

Lemma occurringCount_unique lower keywords n :
  occurringCount lower keywords n → n = keywordHits lower keywords.
Proof.
  unfold keywordHits. induction 1 as [|kw keywords n Hkw _ IH|kw keywords n Hkw _ IH];
    simpl; [reflexivity|..].
  - apply includes_spec in Hkw. rewrite Hkw. simpl. now f_equal.
  - rewrite <- includes_spec in Hkw.
    destruct (Js.includes lower kw); [congruence | exact IH].
Qed.

Section Classifier.

Variable toLowerCase : string → string.

(** The loop, read on the counts the code computes. *)
Lemma detectSceneType_by_hits (text : string) :
  ((∀ scene keywords, (scene, keywords) ∈ SCENE_KEYWORDS → scene ≠ generic →
       keywordHits (toLowerCase text) keywords = 0%nat) →
   detectSceneType toLowerCase text = generic)
  ∧ ((∃ scene keywords, (scene, keywords) ∈ SCENE_KEYWORDS ∧ scene ≠ generic
         ∧ (0 < keywordHits (toLowerCase text) keywords)%nat) →
     ∃ earlier keywords later,
       SCENE_KEYWORDS
       = earlier ++ (detectSceneType toLowerCase text, keywords) :: later
       ∧ detectSceneType toLowerCase text ≠ generic
       ∧ (0 < keywordHits (toLowerCase text) keywords)%nat
       ∧ (∀ s k, (s, k) ∈ earlier → s ≠ generic →
            (keywordHits (toLowerCase text) k
             < keywordHits (toLowerCase text) keywords)%nat)
       ∧ (∀ s k, (s, k) ∈ later → s ≠ generic →
            (keywordHits (toLowerCase text) k
             ≤ keywordHits (toLowerCase text) keywords)%nat)).
Proof.
  unfold detectSceneType.
  destruct (sceneLoop_spec (toLowerCase text) SCENE_KEYWORDS generic 0%nat)
    as [[Hkeep Hle] | (earlier & w & kw & later & Heq & Hrun & Hw & Hlt & Hpre & Hpost)].
  - split.
    + intros _. now rewrite Hkeep.
    + intros (s & k & Hin & Hs & Hpos). specialize (Hle s k Hin Hs). lia.
  - split.
    + intros Hzero. exfalso.
      assert (Hin : (w, kw) ∈ SCENE_KEYWORDS).
      { rewrite Heq. apply elem_of_app. right. apply list_elem_of_here. }
      specialize (Hzero w kw Hin Hw). lia.
    + intros _. rewrite Hrun. simpl. exists earlier, kw, later.
      repeat split; try assumption.
Qed.

(** C7: the classifier works on the lower-cased text, and the count of
    a category is the number of its table keywords that occur in that
    text (the code's count is that number, for every keyword list).  If
    every non-generic category counts zero the result is [generic].  If
    some non-generic category has a positive count, the result is a
    non-generic category of the table whose count is positive, strictly
    greater than the count of every category before it in table order
    and at least the count of every category after it: the highest
    count wins and a tie goes to the first category that reached it. *)
Theorem detectSceneType_first_leader (text : string) :
  (∀ keywords,
      occurringCount (toLowerCase text) keywords
        (keywordHits (toLowerCase text) keywords))
  ∧ ((∀ scene keywords, (scene, keywords) ∈ SCENE_KEYWORDS → scene ≠ generic →
        occurringCount (toLowerCase text) keywords 0) →
     detectSceneType toLowerCase text = generic)
  ∧ ((∃ scene keywords n, (scene, keywords) ∈ SCENE_KEYWORDS ∧ scene ≠ generic
        ∧ occurringCount (toLowerCase text) keywords n ∧ (0 < n)%nat) →
     ∃ earlier keywords later n,
       SCENE_KEYWORDS
       = earlier ++ (detectSceneType toLowerCase text, keywords) :: later
       ∧ detectSceneType toLowerCase text ≠ generic
       ∧ occurringCount (toLowerCase text) keywords n
       ∧ (0 < n)%nat
       ∧ (∀ s k m, (s, k) ∈ earlier → s ≠ generic →
            occurringCount (toLowerCase text) k m → (m < n)%nat)
       ∧ (∀ s k m, (s, k) ∈ later → s ≠ generic →
            occurringCount (toLowerCase text) k m → (m ≤ n)%nat)).
Proof.
  destruct (detectSceneType_by_hits text) as [Hzero Hlead].
  split; [intros keywords; apply keywordHits_occurringCount|]. split.
  - intros Hnone. apply Hzero. intros scene keywords Hin Hs.
    symmetry. apply occurringCount_unique. now apply (Hnone scene).
  - intros (scene & keywords & n & Hin & Hs & Hn & Hpos).
    apply occurringCount_unique in Hn. subst n.
    destruct Hlead as (earlier & kws & later & Heq & Hne & Hk & Hpre & Hpost);
      [now exists scene, keywords|].
    exists earlier, kws, later, (keywordHits (toLowerCase text) kws).
    split; [exact Heq|]. split; [exact Hne|].
    split; [apply keywordHits_occurringCount|]. split; [exact Hk|].
    split; intros s k m Hsk Hs' Hm; apply occurringCount_unique in Hm; subst m.
    + now apply Hpre with s.
    + now apply Hpost with s.
Qed.

End Classifier.

(** No keyword occurs in "release notes"; in "dialog with a table" the
    categories navigation ("tab"), modal and table count one each, and
    navigation is the first of them. *)
Lemma detectSceneType_first_leader_witness :
  detectSceneType asciiLower "release notes" = generic
  ∧ detectSceneType asciiLower "dialog with a table" = navigation.
Proof.
  split.
  - apply (detectSceneType_first_leader asciiLower "release notes").
    intros scene keywords Hin Hs.
    repeat (apply elem_of_cons in Hin as [[= -> ->] | Hin];
            [first [contradiction
                   | apply (keywordHits_occurringCount "release notes")] |]).
    now apply elem_of_nil in Hin.
  - destruct (detectSceneType_first_leader asciiLower "dialog with a table")
      as (Hcount & _ & Hlead).
    destruct Hlead
      as (earlier & kws & later & n & Heq & Hne & Hn & Hpos & Hpre & _).
    { exists modal, ["modal"; "dialog"; "popup"; "confirm"; "alert"; "overlay";
                     "弹窗"; "对话框"; "确认"], 1%nat.
      split; [repeat constructor|]. split; [discriminate|].
      split; [apply (keywordHits_occurringCount "dialog with a table") | lia]. }
    revert Heq Hne.
    generalize (detectSceneType asciiLower "dialog with a table").
    intros winner Heq Hne.
    destruct earlier as [|[scene0 keywords0] earlier].
    + injection Heq as <- _ _. reflexivity.
    + exfalso. injection Heq as <- <- Heq.
      assert (H1 : (1 < n)%nat).
      { eapply (Hpre navigation _ 1%nat);
          [apply list_elem_of_here | discriminate |].
        apply (keywordHits_occurringCount "dialog with a table"). }
      apply occurringCount_unique in Hn.
      assert (Hin : (winner, kws)
                    ∈ earlier ++ (winner, kws) :: later).
      { apply elem_of_app. right. apply list_elem_of_here. }
      rewrite <- Heq in Hin.
      repeat (apply elem_of_cons in Hin as [[= -> ->] | Hin];
              [vm_compute in Hn; lia |]).
      now apply elem_of_nil in Hin.
Defined.

(** ** Worked examples *)

Example detectSceneType_settings :
  detectSceneType asciiLower "settings page with toggle switches" = settings.
Proof. reflexivity. Qed.

Example detectSceneType_upper :
  detectSceneType asciiLower "Login FORM" = form.
Proof. reflexivity. Qed.

Example matchAll_two :
  TermTag.matchAll "x [ID:TERM-001] = a; [ID:TERM-] [ID:TERM-12x] [ID:TERM-7]"
  = Some ["[ID:TERM-001]"; "[ID:TERM-7]"].
Proof. reflexivity. Qed.

(** The first leader wins a tie: "tab" occurs in "table", so navigation
    already counts one when modal and table reach one. *)
Example detectSceneType_tie :
  detectSceneType asciiLower "dialog with a table" = navigation.
Proof. reflexivity. Qed.

Example detectSceneType_generic :
  detectSceneType asciiLower "" = generic.
Proof. reflexivity. Qed.

(** A Terminology issue citing [TERM-001] against a glossary holding
    [[ID:TERM-001]] is left as it is; the score is left alone too. *)
Example sanitizeReport_grounded :
  sanitizeReport groundedReport (Some sampleGlossary) = groundedReport.
Proof. vm_compute. reflexivity. Qed.

(** The same issue citing [TERM-999]. *)
Example sanitizeReport_ungrounded :
  sanitizeReport ungroundedReport (Some sampleGlossary)
  = mkReport (Some "settings.png")
      (mkOverall "Good" (set_terminology 5%Q sampleScores)
         "Account settings screen" "One wrong term")
      [downgrade ungroundedIssue] sampleSummary.
Proof. vm_compute. reflexivity. Qed.

(** * Further properties of the modelled code *)

(** ** The tag scan and the hallucination guard *)

(** X1: [glossaryText.match(/\[ID:TERM-\d+\]/g)] is [null] exactly when
    no well-formed tag occurs in the text, and otherwise the array holds
    exactly the well-formed tags that occur in it. *)
Theorem matchAll_exact (g : string) :
  (TermTag.matchAll g = None ↔ ¬ ∃ tag, wellFormedTag tag ∧ occursIn tag g)
  ∧ ∀ ms, TermTag.matchAll g = Some ms →
      ms ≠ [] ∧ ∀ tag, tag ∈ ms ↔ wellFormedTag tag ∧ occursIn tag g.
Proof.
  assert (Hscan : ∀ tag, tag ∈ TermTag.scan (String.length g) g
                         ↔ wellFormedTag tag ∧ occursIn tag g).
  { intros tag. split; [apply scan_sound|].
    intros [Hwf (pre & post & ->)]. now apply (scan_complete _ _ tag pre post). }
  unfold TermTag.matchAll.
  destruct (TermTag.scan (String.length g) g) as [|m ms] eqn:Hs.
  - split.
    + split; [|reflexivity]. intros _ (tag & Htag).
      apply Hscan in Htag. now apply elem_of_nil in Htag.
    + discriminate.
  - split.
    + split; [discriminate|]. intros Hno. exfalso. apply Hno.
      exists m. apply Hscan. apply list_elem_of_here.
    + intros ms' [= <-]. split; [discriminate | exact Hscan].
Qed.

(** X2: the guard only ever touches category, severity, description,
    term id and glossary source of issues, and the terminology score:
    the number and order of the issues, every other issue field, the
    other five scores, the quality label, the summary and the screenshot
    id are as before. *)
Theorem sanitizeReport_frame (report : ScreenshotReport)
    (glossaryText : option string) :
  screenshotId (sanitizeReport report glossaryText) = screenshotId report
  ∧ summary (sanitizeReport report glossaryText) = summary report
  ∧ qualityLevel (overall (sanitizeReport report glossaryText))
    = qualityLevel (overall report)
  ∧ sceneDescription (overall (sanitizeReport report glossaryText))
    = sceneDescription (overall report)
  ∧ mainProblemsSummary (overall (sanitizeReport report glossaryText))
    = mainProblemsSummary (overall report)
  ∧ accuracy (scores (overall (sanitizeReport report glossaryText)))
    = accuracy (scores (overall report))
  ∧ layout (scores (overall (sanitizeReport report glossaryText)))
    = layout (scores (overall report))
  ∧ grammar (scores (overall (sanitizeReport report glossaryText)))
    = grammar (scores (overall report))
  ∧ formatting (scores (overall (sanitizeReport report glossaryText)))
    = formatting (scores (overall report))
  ∧ localizationTone (scores (overall (sanitizeReport report glossaryText)))
    = localizationTone (scores (overall report))
  ∧ map (fun i => (issue_id i, location i, sourceText i, targetText i,
                   suggestionRationale i, suggestionsTarget i))
      (issues (sanitizeReport report glossaryText))
    = map (fun i => (issue_id i, location i, sourceText i, targetText i,
                     suggestionRationale i, suggestionsTarget i))
        (issues report).
Proof.
  unfold sanitizeReport. destruct glossaryText as [g|]; [|now repeat split].
  destruct (Js.nonEmpty g); simpl; [|now repeat split].
  assert (Hmap : map (fun i => (issue_id i, location i, sourceText i,
                                targetText i, suggestionRationale i,
                                suggestionsTarget i))
                   (map (sanitizeIssue (validIds g)) (issues report))
                 = map (fun i => (issue_id i, location i, sourceText i,
                                  targetText i, suggestionRationale i,
                                  suggestionsTarget i))
                     (issues report)).
  { rewrite map_map. apply map_ext. intros i. unfold sanitizeIssue.
    destruct (String.eqb (issueCategory i) "Terminology"); [|reflexivity].
    now destruct (isValidTermId (validIds g) (glossaryTermId i)). }
  destruct (length _ =? 0)%nat; simpl; now repeat split.
Qed.

Lemma sanitized_terminology_grounded (report : ScreenshotReport)
    (g : string) (issue : QaIssue) :
  g ≠ "" →
  issue ∈ issues (sanitizeReport report (Some g)) →
  issueCategory issue = "Terminology" →
  grounded g (glossaryTermId issue).
Proof.
  intros Hg Hin Hcat.
  assert (Hin' : issue ∈ map (sanitizeIssue (validIds g)) (issues report)).
  { revert Hin. unfold sanitizeReport.
    destruct g as [|c g]; [congruence|]. simpl.
    now destruct (length _ =? 0)%nat. }
  apply list_elem_of_fmap in Hin' as (i0 & -> & _).
  revert Hcat. unfold sanitizeIssue.
  destruct (String.eqb (issueCategory i0) "Terminology") eqn:Hc.
  - destruct (isValidTermId (validIds g) (glossaryTermId i0)) eqn:Hv.
    + intros _. now apply isValidTermId_grounded.
    + discriminate.
  - intros Hcat. apply String.eqb_neq in Hc. contradiction.
Qed.

(** X3: with a non-empty glossary text, every issue that is still a
    Terminology issue after the guard cites a well-formed tag that
    occurs in the glossary. *)
Theorem sanitizeReport_leaves_only_grounded (report : ScreenshotReport)
    (g : string) (issue : QaIssue) :
  g ≠ "" →
  issue ∈ issues (sanitizeReport report (Some g)) →
  issueCategory issue = "Terminology" →
  grounded g (glossaryTermId issue).
Proof. exact (sanitized_terminology_grounded report g issue). Qed.

Lemma sanitizeReport_leaves_only_grounded_witness :
  grounded sampleGlossary (glossaryTermId groundedIssue).
Proof.
  apply (sanitizeReport_leaves_only_grounded groundedReport sampleGlossary
           groundedIssue).
  - discriminate.
  - vm_compute. apply list_elem_of_here.
  - reflexivity.
Defined.

(** X4: with a non-empty glossary text, a Terminology issue whose term
    id is grounded stays in the report exactly as it was, at its
    position, and the terminology score is not touched. *)
Theorem sanitizeReport_keeps_grounded (report : ScreenshotReport)
    (g : string) (k : nat) (issue : QaIssue) :
  g ≠ "" →
  issues report !! k = Some issue →
  issueCategory issue = "Terminology" →
  grounded g (glossaryTermId issue) →
  issues (sanitizeReport report (Some g)) !! k = Some issue
  ∧ scores (overall (sanitizeReport report (Some g))) = scores (overall report).
Proof.
  intros Hg Hk Hcat Hgr.
  apply isValidTermId_grounded in Hgr.
  assert (Hsan : sanitizeIssue (validIds g) issue = issue).
  { unfold sanitizeIssue. now rewrite Hcat, Hgr. }
  assert (Hk' : map (sanitizeIssue (validIds g)) (issues report) !! k
                = Some issue).
  { rewrite list_lookup_fmap, Hk. simpl. now rewrite Hsan. }
  assert (Hsome : List.filter isTerminology
                    (map (sanitizeIssue (validIds g)) (issues report)) ≠ []).
  { intros Hnil.
    assert (Hin : In issue (List.filter isTerminology
                     (map (sanitizeIssue (validIds g)) (issues report)))).
    { apply filter_In. split.
      - apply list_elem_of_In, list_elem_of_lookup. eauto.
      - unfold isTerminology. now rewrite Hcat. }
    rewrite Hnil in Hin. exact Hin. }
  unfold sanitizeReport. destruct g as [|c g]; [congruence|]. simpl.
  destruct (List.filter isTerminology _) as [|t ts]; [congruence|].
  simpl. split; [exact Hk' | reflexivity].
Qed.

Lemma sanitizeReport_keeps_grounded_witness :
  issues (sanitizeReport groundedReport (Some sampleGlossary)) !! 0%nat
  = Some groundedIssue
  ∧ scores (overall (sanitizeReport groundedReport (Some sampleGlossary)))
    = scores (overall groundedReport).
Proof.
  apply (sanitizeReport_keeps_grounded groundedReport sampleGlossary 0
           groundedIssue).
  - discriminate.
  - reflexivity.
  - reflexivity.
  - apply isValidTermId_grounded. vm_compute. reflexivity.
Defined.

(** ** The verifier merge *)

Section MergeProperties.

Variable toLowerCase : string → string.

Lemma mergeIssue_frame m issue kept :
  mergeIssue toLowerCase m issue = Some kept → mergeFrame kept = mergeFrame issue.
Proof.
  unfold mergeIssue. destruct (m !! issue_id issue) as [verdict|].
  - destruct (isValid verdict); simpl.
    + intros [= <-]. unfold refineRationale, refineSeverity.
      destruct (refinedSeverity verdict) as [s|], (refinedRationale verdict) as [t|];
        try destruct (Js.nonEmpty s); try destruct (Js.nonEmpty t); reflexivity.
    + destruct (isStyleOrFormatting issue && negb (isHallucination toLowerCase verdict));
        [|discriminate].
      now intros [= <-].
  - now intros [= <-].
Qed.

(** X5: the merge only removes issues and only rewrites severity,
    description and rationale: the issues it returns are, in the same
    order, a sub-sequence of the input issues as far as every other
    field is concerned. *)
Theorem mergeVerdicts_sublist (result : VerificationResult) (l : list QaIssue) :
  sublist (map mergeFrame (mergeVerdicts toLowerCase result l))
    (map mergeFrame l).
Proof.
  unfold mergeVerdicts. induction l as [|i l IH]; simpl; [constructor|].
  destruct (mergeIssue toLowerCase (verifiedIssuesMap result) i) as [kept|] eqn:Hm;
    simpl.
  - rewrite (mergeIssue_frame _ _ _ Hm). now constructor.
  - now constructor.
Qed.

(** X6: an issue for which the response holds no verdict is kept as it
    is; in particular a response without a [verifiedIssues] array, or
    with verdicts for other ids only, leaves the whole list unchanged. *)
Theorem mergeVerdicts_without_verdicts (result : VerificationResult)
    (l : list QaIssue) :
  (∀ issue, issue ∈ l → verifiedIssuesMap result !! issue_id issue = None) →
  mergeVerdicts toLowerCase result l = l.
Proof.
  unfold mergeVerdicts. induction l as [|i l IH]; intros Hno; [reflexivity|].
  simpl. unfold mergeIssue at 1. rewrite (Hno i) by apply list_elem_of_here.
  simpl. f_equal. apply IH. intros j Hj. apply Hno. now right.
Qed.

Lemma verifiedIssuesMap_snoc vs v :
  verifiedIssuesMap (mkVerification (Some (vs ++ [v])))
  = <[verdict_id v := v]> (verifiedIssuesMap (mkVerification (Some vs))).
Proof. unfold verifiedIssuesMap. simpl. now rewrite fold_left_app. Qed.

(** X7: the verdict used for an id is the last one the response lists
    for it, and there is none exactly when the response lists none. *)
Theorem verifiedIssuesMap_last_wins (vs : list Verdict) (k : string) :
  verifiedIssuesMap (mkVerification (Some vs)) !! k
  = last (List.filter (fun v => String.eqb (verdict_id v) k) vs).
Proof.
  induction vs as [|v vs IH] using rev_ind; [apply lookup_empty|].
  rewrite verifiedIssuesMap_snoc, List.filter_app. simpl.
  destruct (String.eqb (verdict_id v) k) eqn:Hk.
  - apply String.eqb_eq in Hk. subst k.
    rewrite lookup_insert_eq. now rewrite last_snoc.
  - apply String.eqb_neq in Hk.
    rewrite lookup_insert_ne by assumption. now rewrite app_nil_r.
Qed.

(** X8: a rejected issue is dropped, Style and Formatting included, as
    soon as the lower-cased reason mentions "hallucination",
    "not visible" or "does not exist". *)
Theorem verifier_drops_hallucination (result : VerificationResult)
    (l : list QaIssue) (issue : QaIssue) (verdict : Verdict) :
  verifiedIssuesMap result !! issue_id issue = Some verdict →
  isValid verdict = false →
  Js.includes (toLowerCase (Js.orElse (reason verdict) "")) "hallucination" = true
  ∨ Js.includes (toLowerCase (Js.orElse (reason verdict) "")) "not visible" = true
  ∨ Js.includes (toLowerCase (Js.orElse (reason verdict) "")) "does not exist" = true →
  mergeIssue toLowerCase (verifiedIssuesMap result) issue = None
  ∧ ∀ kept, kept ∈ mergeVerdicts toLowerCase result l →
            issue_id kept ≠ issue_id issue.
Proof.
  intros Hverdict Hinvalid Hreason.
  assert (Hh : isHallucination toLowerCase verdict = true).
  { unfold isHallucination.
    destruct Hreason as [-> | [-> | ->]]; rewrite ?orb_true_r; reflexivity. }
  assert (Hdrop : ∀ x, issue_id x = issue_id issue →
                       mergeIssue toLowerCase (verifiedIssuesMap result) x = None).
  { intros x Hid. unfold mergeIssue. rewrite Hid, Hverdict, Hinvalid, Hh. simpl.
    now rewrite andb_false_r. }
  split; [now apply Hdrop|].
  unfold mergeVerdicts. intros kept (x & _ & Hx)%list_elem_of_omap Hid.
  pose proof (mergeIssue_frame _ _ _ Hx) as Hf.
  assert (Hidx : issue_id x = issue_id issue).
  { unfold mergeFrame in Hf. injection Hf as <- _ _ _ _ _ _ _. exact Hid. }
  rewrite (Hdrop x Hidx) in Hx. discriminate.
Qed.

(** X9: an issue whose verdict approves it is kept; its severity becomes
    the refined severity and its rationale the refined rationale where
    the verdict gives a non-empty one, and nothing else changes. *)
Theorem verifier_refines_approved_issue (result : VerificationResult)
    (l : list QaIssue) (issue : QaIssue) (verdict : Verdict) :
  issue ∈ l →
  verifiedIssuesMap result !! issue_id issue = Some verdict →
  isValid verdict = true →
  ∃ kept, kept ∈ mergeVerdicts toLowerCase result l
    ∧ severity kept
      = (if Js.truthy (refinedSeverity verdict)
         then default "" (refinedSeverity verdict) else severity issue)
    ∧ suggestionRationale kept
      = (if Js.truthy (refinedRationale verdict)
         then default "" (refinedRationale verdict)
         else suggestionRationale issue)
    ∧ description kept = description issue
    ∧ mergeFrame kept = mergeFrame issue.
Proof.
  intros Hin Hverdict Hvalid.
  exists (refineRationale verdict (refineSeverity verdict issue)). split.
  - unfold mergeVerdicts. apply list_elem_of_omap. exists issue.
    split; [assumption|]. unfold mergeIssue. now rewrite Hverdict, Hvalid.
  - unfold refineRationale, refineSeverity, Js.truthy.
    destruct (refinedSeverity verdict) as [s|], (refinedRationale verdict) as [t|];
      simpl; try destruct (Js.nonEmpty s); try destruct (Js.nonEmpty t);
      now repeat split.
Qed.

End MergeProperties.

Lemma mergeVerdicts_without_verdicts_witness :
  mergeVerdicts asciiLower (mkVerification None) sampleIssues = sampleIssues.
Proof.
  apply (mergeVerdicts_without_verdicts asciiLower (mkVerification None)
           sampleIssues).
  intros issue _. apply lookup_empty.
Defined.

Lemma verifier_drops_hallucination_witness :
  mergeIssue asciiLower
    (verifiedIssuesMap (mkVerification (Some [hallucinationVerdict])))
    styleIssue = None.
Proof.
  apply (verifier_drops_hallucination asciiLower
           (mkVerification (Some [hallucinationVerdict])) sampleIssues
           styleIssue hallucinationVerdict).
  - vm_compute. reflexivity.
  - reflexivity.
  - right. left. vm_compute. reflexivity.
Defined.

Lemma verifier_refines_approved_issue_witness :
  ∃ kept,
    kept ∈ mergeVerdicts asciiLower (mkVerification (Some [approvingVerdict]))
             sampleIssues
    ∧ severity kept = "Major"
    ∧ suggestionRationale kept = "Blocks the save action".
Proof.
  destruct (verifier_refines_approved_issue asciiLower
              (mkVerification (Some [approvingVerdict])) sampleIssues
              layoutIssue approvingVerdict)
    as (kept & Hin & Hsev & Hrat & _).
  - apply list_elem_of_further, list_elem_of_here.
  - vm_compute. reflexivity.
  - reflexivity.
  - exists kept. auto.
Defined.

(** ** Retry schedule *)

Section BackoffSchedule.

Context {T : Type}.
Variable fn : M T.
Variable e : JsError.
Variable ev : Event.

Lemma backoffDelay_shift delay i :
  backoffDelay (delay * 2) i = backoffDelay delay (S i).
Proof.
  unfold backoffDelay. rewrite Nat2N.inj_succ, N.pow_succ_r'. lia.
Qed.

(** X10: for any retry budget and initial delay, when every attempt
    fails the loop makes exactly [retries + 1] attempts, waits
    [delay * 2^i] before retry number [i+1], and then propagates the
    failure. *)
Theorem retryWithBackoff_schedule (retries : nat) : ∀ (delay : N) (h : History),
  (∀ h0, fn h0 = (inl e, h0 ++ [ev])) →
  retryWithBackoff fn retries delay h
  = (inl e,
     h ++ [ev]
       ++ flat_map (fun i => [EvSleep (backoffDelay delay i); ev])
            (seq 0 retries)).
Proof.
  induction retries as [|retries IH]; intros delay h Hfail; simpl;
    unfold tryCatch; rewrite Hfail.
  - reflexivity.
  - unfold_m. rewrite (IH (delay * 2)%N _ Hfail). f_equal.
    assert (Hd : backoffDelay delay 0 = delay)
      by (unfold backoffDelay; simpl; lia).
    assert (Hshift : ∀ n start,
      flat_map (fun i => [EvSleep (backoffDelay (delay * 2) i); ev]) (seq start n)
      = flat_map (fun i => [EvSleep (backoffDelay delay i); ev])
          (seq (S start) n)).
    { intros n. induction n as [|n IHn]; intros start; simpl; [reflexivity|].
      now rewrite backoffDelay_shift, IHn. }
    rewrite Hd, Hshift, <- !app_assoc. reflexivity.
Qed.

End BackoffSchedule.

Lemma retryWithBackoff_schedule_witness :
  retryWithBackoff
    (generateContent (analysisBackend rejectingEnv) Analysis LLM_MODEL_ID)
    3 500%N []
  = (inl (BackendError "503"),
     [EvGenerate Analysis LLM_MODEL_ID;
      EvSleep 500%N; EvGenerate Analysis LLM_MODEL_ID;
      EvSleep 1000%N; EvGenerate Analysis LLM_MODEL_ID;
      EvSleep 2000%N; EvGenerate Analysis LLM_MODEL_ID]).
Proof.
  apply (retryWithBackoff_schedule
           (generateContent (analysisBackend rejectingEnv) Analysis LLM_MODEL_ID)
           (BackendError "503") (EvGenerate Analysis LLM_MODEL_ID) 3 500%N []).
  intros h0. reflexivity.
Defined.

(** ** Image intake, verifier stage and pipelines *)

Section StageProperties.

Variable toLowerCase : string → string.
Variable enforceScoreConsistency : list QaIssue → Scores → Scores.
Variable determineStrictQuality : list QaIssue → string.
Variable fallback : Binding.
Variable env : Env.
Variable apiKey : option string.
Variable payload : LlmRequestPayload.

Lemma existsb_eqb_elem_of (x : string) (l : list string) :
  existsb (String.eqb x) l = true ↔ x ∈ l.
Proof.
  rewrite existsb_exists, list_elem_of_In. split.
  - intros (y & Hy & ->%String.eqb_eq). exact Hy.
  - intros Hx. exists x. split; [exact Hx | apply String.eqb_refl].
Qed.

(** X11: an image that [processImageUrl] delivers always carries one of
    the five MIME types the backend accepts: an accepted type is passed
    on, any other becomes [image/png] when the lower-cased URL ends in
    [.png] and [image/jpeg] otherwise; the data is passed on as read. *)
Theorem processImageUrl_mime_allowed (url : string) (h : History)
    (image : ProcessedImage) (h' : History) :
  processImageUrl toLowerCase env url h = (inr image, h') →
  mimeType image ∈ allowedTypes
  ∧ ∃ mime, fetchDataUrl env h url = Some (mime, data image)
      ∧ (mime ∈ allowedTypes → mimeType image = mime)
      ∧ (mime ∉ allowedTypes →
         mimeType image
         = if Js.endsWith (toLowerCase url) ".png" then "image/png"
           else "image/jpeg").
Proof.
  unfold processImageUrl.
  destruct (fetchDataUrl env h url) as [[mime d]|]; [|discriminate].
  destruct (existsb (String.eqb mime) allowedTypes) eqn:Hallowed;
    intros [= <- <-]; simpl.
  - apply existsb_eqb_elem_of in Hallowed. split; [assumption|].
    exists mime. split; [reflexivity|]. split; [reflexivity|]. contradiction.
  - assert (Hnot : mime ∉ allowedTypes).
    { intros Hin%existsb_eqb_elem_of. congruence. }
    split.
    + destruct (Js.endsWith (toLowerCase url) ".png");
        apply existsb_eqb_elem_of; reflexivity.
    + exists mime. split; [reflexivity|]. split; [contradiction | reflexivity].
Qed.

(** X12: when either image cannot be read, an analysis attempt fails
    with the fetch error after both reads were started, and no request
    goes to the generation backend. *)
Theorem runAnalysis_fetch_failure (modelId : string) (h : History) :
  let enUrl := Js.orElse (enImageBase64 payload) "" in
  let deUrl := Js.orElse (deImageBase64 payload) "" in
  fetchDataUrl env h enUrl = None
  ∨ fetchDataUrl env (h ++ [EvFetch enUrl]) deUrl = None →
  runAnalysis toLowerCase enforceScoreConsistency determineStrictQuality
    fallback env payload modelId h
  = (inl FetchFailed, h ++ [EvFetch enUrl] ++ [EvFetch deUrl]).
Proof.
  intros enUrl deUrl Hfail. subst enUrl deUrl.
  unfold runAnalysis, promiseAll2, processImageUrl. unfold_m.
  rewrite app_assoc.
  destruct Hfail as [Hen | Hde].
  - rewrite Hen.
    now destruct (fetchDataUrl env _ (Js.orElse (deImageBase64 payload) ""))
      as [[mime d]|].
  - destruct (fetchDataUrl env h (Js.orElse (enImageBase64 payload) ""))
      as [[mime d]|]; now rewrite Hde.
Qed.

(** X13: when the parsed report has no issues (the field missing or the
    array empty) the verifier is not called: the attempt ends right
    after the analysis request and returns the reconciled report. *)
Theorem runAnalysis_without_issues_skips_verifier (modelId : string)
    (h : History) (parsed : ParsedReport) (m1 d1 m2 d2 : string) :
  let enUrl := Js.orElse (enImageBase64 payload) "" in
  let deUrl := Js.orElse (deImageBase64 payload) "" in
  let h2 := h ++ [EvFetch enUrl] ++ [EvFetch deUrl] in
  fetchDataUrl env h enUrl = Some (m1, d1) →
  fetchDataUrl env (h ++ [EvFetch enUrl]) deUrl = Some (m2, d2) →
  analysisBackend env h2 modelId = Resolves (Parses parsed) →
  p_issues parsed = None ∨ p_issues parsed = Some [] →
  runAnalysis toLowerCase enforceScoreConsistency determineStrictQuality
    fallback env payload modelId h
  = (inr (reconcile enforceScoreConsistency determineStrictQuality payload
            (polyfill payload parsed)),
     h2 ++ [EvGenerate Analysis modelId]).
Proof.
  intros enUrl deUrl h2 Hen Hde Hb Hnone. subst enUrl deUrl h2.
  unfold runAnalysis, promiseAll2, processImageUrl. unfold_m.
  rewrite app_assoc in Hb |- *. rewrite Hen, Hde, Hb.
  unfold polyfill at 1. destruct Hnone as [-> | ->]; reflexivity.
Qed.

(** X14: the verifier stage changes nothing but the issue list, and it
    sends one request to the primary model, at most one more to the
    fallback model, and never waits. *)
Theorem verifyIssues_requests (initialReport : ScreenshotReport) (h : History) :
  ∃ r h', verifyIssues toLowerCase fallback env initialReport h = (inr r, h')
    ∧ screenshotId r = screenshotId initialReport
    ∧ overall r = overall initialReport
    ∧ summary r = summary initialReport
    ∧ (h' = h ++ [EvGenerate Verification LLM_MODEL_ID]
       ∨ ∃ model, fallback = Bound model
           ∧ h' = h ++ [EvGenerate Verification LLM_MODEL_ID]
                    ++ [EvGenerate Verification model]).
Proof.
  unfold verifyIssues, verifierResponse. unfold_m.
  destruct (verifierBackend env h LLM_MODEL_ID) as [e|[| |result]]; simpl;
    try (eexists _, _; repeat split; now left).
  destruct fallback as [model|name]; simpl;
    [|eexists _, _; repeat split; now left].
  rewrite <- app_assoc.
  destruct (verifierBackend env _ model) as [e'|[| |result]]; simpl;
    eexists _, _; repeat split; right; exists model; split; reflexivity.
Qed.

(** X15: on the server the verifier stage is a no-op whenever its single
    request is rejected, answered with an empty body, or answered with
    text that does not parse: the report comes back as it went in. *)
Theorem serverVerifyIssues_failure_returns_input
    (initialReport : ScreenshotReport) (h : History) :
  (∃ e, verifierBackend env h serverModel = Rejects e)
  ∨ verifierBackend env h serverModel = Resolves Empty
  ∨ verifierBackend env h serverModel = Resolves Malformed →
  serverVerifyIssues toLowerCase env initialReport h
  = (inr initialReport, h ++ [EvGenerate Verification serverModel]).
Proof.
  unfold serverVerifyIssues. unfold_m.
  intros [(e & ->) | [-> | ->]]; reflexivity.
Qed.

End StageProperties.

(** ** End-to-end properties of the two pipelines *)

Section EndToEnd.

Variable toLowerCase : string → string.
Variable enforceScoreConsistency : list QaIssue → Scores → Scores.
Variable determineStrictQuality : list QaIssue → string.
Variable fallback : Binding.
Variable env : Env.
Variable apiKey : option string.
Variable payload : LlmRequestPayload.

Local Abbreviation client :=
  (callTranslationQaLLM toLowerCase enforceScoreConsistency
     determineStrictQuality fallback env apiKey payload).
Local Abbreviation server :=
  (analyzeScreenshot toLowerCase env apiKey payload).

Lemma sanitizeReport_screenshotId report g :
  screenshotId (sanitizeReport report g) = screenshotId report.
Proof.
  unfold sanitizeReport. destruct g as [g|]; [|reflexivity].
  destruct (Js.nonEmpty g); simpl; [|reflexivity].
  now destruct (length _ =? 0)%nat.
Qed.

(** A report returned by the server is the sanitized form of a report
    that has the screenshot id of the request. *)
Lemma analyzeScreenshot_returns_stamped h r h' :
  server h = (inr r, h') →
  ∃ verified,
    screenshotId verified = payload_screenshotId payload
    ∧ r = sanitizeReport verified (glossaryText payload).
Proof.
  unfold analyzeScreenshot. destruct (Js.truthy apiKey); [|discriminate].
  intros (h0 & Hrun)%retryWithBackoff_returns. revert Hrun.
  unfold serverAttempt. unfold_m.
  destruct (analysisBackend env h0 serverModel) as [e|[| |parsed]];
    try discriminate.
  destruct (0 <? length (issues (polyfill payload parsed)))%nat.
  - match goal with
    | |- context [serverVerifyIssues _ _ ?init ?hv] =>
        destruct (serverVerifyIssues_total toLowerCase env init hv)
          as (v & hv' & -> & _ & Hid & _)
    end.
    intros [= <- <-]. exists v. auto.
  - intros [= <- <-]. exists (polyfill payload parsed). auto.
Qed.

(** X16: whatever screenshot id the model wrote into its response, a
    report returned by either pipeline carries the id of the request. *)
Theorem returned_report_has_request_id :
  (∀ h r h',
      callTranslationQaLLM toLowerCase enforceScoreConsistency
        determineStrictQuality fallback env apiKey payload h = (inr r, h') →
      screenshotId r = payload_screenshotId payload)
  ∧ (∀ h r h',
        analyzeScreenshot toLowerCase env apiKey payload h = (inr r, h') →
        screenshotId r = payload_screenshotId payload).
Proof.
  split; intros h r h' Hrun.
  - apply callTranslationQaLLM_returns in Hrun as (modelId & h0 & Hrun & _).
    apply runAnalysis_returns in Hrun
      as (hist & parsed & verified & _ & -> & Hv).
    change (screenshotId
              (sanitizeReport verified (glossaryText payload))
            = payload_screenshotId payload).
    rewrite sanitizeReport_screenshotId.
    destruct Hv as [-> | (result & ->)]; reflexivity.
  - apply analyzeScreenshot_returns_stamped in Hrun as (verified & Hid & ->).
    now rewrite sanitizeReport_screenshotId.
Qed.

(** X17: when the request carries a non-empty glossary text, no report
    returned by either pipeline holds a Terminology issue whose term id
    is not a well-formed tag of that glossary. *)
Theorem returned_terminology_is_grounded (g : string) (issue : QaIssue) :
  glossaryText payload = Some g → g ≠ "" →
  issueCategory issue = "Terminology" →
  (∀ h r h', client h = (inr r, h') → issue ∈ issues r →
             grounded g (glossaryTermId issue))
  ∧ (∀ h r h', server h = (inr r, h') → issue ∈ issues r →
               grounded g (glossaryTermId issue)).
Proof.
  intros Hgloss Hg Hcat. split; intros h r h' Hrun Hin.
  - apply callTranslationQaLLM_returns in Hrun as (modelId & h0 & Hrun & _).
    apply runAnalysis_returns in Hrun
      as (hist & parsed & verified & _ & -> & _).
    change (issue ∈ issues (sanitizeReport verified (glossaryText payload)))
      in Hin.
    rewrite Hgloss in Hin.
    exact (sanitized_terminology_grounded verified g issue Hg Hin Hcat).
  - apply analyzeScreenshot_returns_stamped in Hrun as (verified & _ & ->).
    rewrite Hgloss in Hin.
    exact (sanitized_terminology_grounded verified g issue Hg Hin Hcat).
Qed.

(** X18: every failure of the server function reaches the caller wrapped
    in an [HttpsError], the missing key included. *)
Theorem analyzeScreenshot_errors_are_wrapped (h : History) (e : JsError)
    (h' : History) :
  server h = (inl e, h') → ∃ cause, e = HttpsError cause.
Proof.
  unfold analyzeScreenshot. destruct (Js.truthy apiKey).
  - intros (e1 & h1 & e2 & h2 & _ & _ & Hlast)%retryWithBackoff_fails_inv.
    revert Hlast. unfold serverAttempt. unfold tryCatch at 1.
    match goal with
    | |- context [let (_, _) := ?body ?hist in _] =>
        destruct (body hist) as [[cause|r] hb]
    end.
    + unfold_m. intros [= <- <-]. eauto.
    + discriminate.
  - unfold_m. intros [= <- <-]. eauto.
Qed.

(** Without an API key both entry points fail at once: nothing is
    fetched, no request is sent, nothing is retried. *)
Lemma missing_api_key_fails_before_any_effect (h : History) :
  apiKey = None ∨ apiKey = Some "" →
  client h = (inl ApiKeyMissing, h)
  ∧ server h = (inl (HttpsError ApiKeyMissing), h).
Proof.
  unfold callTranslationQaLLM, analyzeScreenshot.
  intros [-> | ->]; split; reflexivity.
Qed.

End EndToEnd.

(** ** Skill bank and glossary manager *)

Example recompileGlossary_sample :
  recompileGlossary asciiLower noTrim sampleFiles
  = mkUpdate 3
      (JsArray.join JsArray.newline
         ["[ID:TERM-003] account = Benutzerkonto [source: extra_de.xlsx]";
          "[ID:TERM-002] Site = Standort [source: terms_de.xlsx]";
          "[ID:TERM-004] Save = Speichern [source: extra_de.xlsx]"])
      (Some "de-DE").
Proof. vm_compute. reflexivity. Qed.

(** [TERM-001] was minted for "Account = Konto" and went with that line
    when "account = Benutzerkonto" replaced it: the compiled text no
    longer holds it, and the guard downgrades an issue that cites it. *)
Example replaced_id_is_downgraded :
  sanitizeIssue
    (validIds (mergedContent (recompileGlossary asciiLower noTrim sampleFiles)))
    groundedIssue
  = downgrade groundedIssue.
Proof. vm_compute. reflexivity. Qed.

Example split_sample :
  JsArray.split "=" "a = b = c" = ["a "; " b "; " c"]
  ∧ JsArray.split "=" "none" = ["none"]
  ∧ JsArray.split "=" "" = [""]
  ∧ JsArray.split "=" "x=" = ["x"; ""].
Proof. repeat split. Qed.

Lemma occursIn_trans a b c : occursIn a b → occursIn b c → occursIn a c.
Proof.
  intros (p1 & q1 & ->) (p2 & q2 & ->).
  exists (p2 +:+ p1), (q1 +:+ q2). now rewrite !append_assoc.
Qed.

Lemma occursIn_prefix a rest : occursIn a (a +:+ rest).
Proof. exists "", rest. reflexivity. Qed.

(** Every element of a joined array occurs in the result. *)
Lemma join_occurs sep (l : list string) x :
  x ∈ l → occursIn x (JsArray.join sep l).
Proof.
  induction l as [|y l IH]; intros Hin; [now apply elem_of_nil in Hin|].
  apply elem_of_cons in Hin as [-> | Hin].
  - destruct l as [|z l]; simpl.
    + exists "", "". now rewrite append_nil_r.
    + apply occursIn_prefix.
  - destruct l as [|z l]; [now apply elem_of_nil in Hin|].
    specialize (IH Hin) as (pre & post & Heq).
    change (JsArray.join sep (y :: z :: l))
      with (y +:+ sep +:+ JsArray.join sep (z :: l)).
    rewrite Heq. exists (y +:+ sep +:+ pre), post.
    now rewrite !append_assoc.
Qed.

(** *** Language detection from file names *)

Section LanguageDetection.

Variable toLowerCase : string → string.

(** X19: a file counts as German exactly when its lower-cased name
    contains "de" or "ger", and as French exactly when it contains "fr"
    and neither of those: the German test wins, and the longer needles
    of the source ("deutsch", "fre", "french") never decide anything. *)
Theorem detectLanguageFromFile_priority (filename : string) :
  (detectLanguageFromFile toLowerCase filename = Some "de-DE"
   ↔ occursIn "de" (toLowerCase filename)
     ∨ occursIn "ger" (toLowerCase filename))
  ∧ (detectLanguageFromFile toLowerCase filename = Some "fr-FR"
     ↔ ¬ occursIn "de" (toLowerCase filename)
       ∧ ¬ occursIn "ger" (toLowerCase filename)
       ∧ occursIn "fr" (toLowerCase filename))
  ∧ (detectLanguageFromFile toLowerCase filename = None
     ↔ ¬ occursIn "de" (toLowerCase filename)
       ∧ ¬ occursIn "ger" (toLowerCase filename)
       ∧ ¬ occursIn "fr" (toLowerCase filename)).
Proof.
  unfold detectLanguageFromFile.
  set (lower := toLowerCase filename).
  assert (Hde : Js.includes lower "deutsch" = true → Js.includes lower "de" = true).
  { rewrite !includes_spec. apply occursIn_trans. exists "", "utsch". reflexivity. }
  assert (Hfre : Js.includes lower "fre" = true → Js.includes lower "fr" = true).
  { rewrite !includes_spec. apply occursIn_trans. exists "", "e". reflexivity. }
  assert (Hfrench : Js.includes lower "french" = true → Js.includes lower "fr" = true).
  { rewrite !includes_spec. apply occursIn_trans. exists "", "ench". reflexivity. }
  rewrite <- !includes_spec.
  destruct (Js.includes lower "de") eqn:E1, (Js.includes lower "ger") eqn:E2,
    (Js.includes lower "deutsch") eqn:E3, (Js.includes lower "fr") eqn:E4,
    (Js.includes lower "fre") eqn:E5, (Js.includes lower "french") eqn:E6;
    simpl;
    try (specialize (Hde eq_refl); discriminate);
    try (specialize (Hfre eq_refl); discriminate);
    try (specialize (Hfrench eq_refl); discriminate);
    repeat split; intros; try discriminate; try tauto;
    repeat match goal with
           | H : _ ∧ _ |- _ => destruct H
           | H : _ ∨ _ |- _ => destruct H
           end;
    try discriminate; try congruence; auto.
Qed.

End LanguageDetection.

(** A French glossary whose name happens to contain "de". *)
Example detectLanguageFromFile_french_guide :
  detectLanguageFromFile asciiLower "French_Guide.xlsx" = Some "de-DE".
Proof. reflexivity. Qed.

(** *** Minted term ids *)

Lemma decodeNumber_zero_prefix k s :
  decodeNumber (JsArray.repeat "0" k +:+ s) = decodeNumber s.
Proof.
  induction k as [|k IH]; [reflexivity|].
  simpl. str_simpl. unfold decodeNumber in *. simpl.
  destruct (NilEmpty.uint_of_string (JsArray.repeat "0" k +:+ s)) as [d|],
    (NilEmpty.uint_of_string s) as [d'|]; simpl in *; congruence.
Qed.

Lemma decodeNumber_ofNumber n : decodeNumber (JsArray.ofNumber n) = Some n.
Proof.
  unfold decodeNumber, JsArray.ofNumber.
  rewrite NilEmpty.usu. simpl. f_equal. apply DecimalN.Unsigned.of_to.
Qed.

Lemma mintTermId_inj a b : mintTermId a = mintTermId b → a = b.
Proof.
  unfold mintTermId, JsArray.padStart. intros H.
  apply (String.app_inj "TERM-") in H.
  apply (f_equal decodeNumber) in H.
  rewrite !decodeNumber_zero_prefix, !decodeNumber_ofNumber in H. congruence.
Qed.

Lemma allDigits_append a b :
  allDigits (a +:+ b) = allDigits a && allDigits b.
Proof.
  induction a as [|c a IH]; str_simpl; simpl; [reflexivity|].
  rewrite IH. now rewrite andb_assoc.
Qed.

Lemma allDigits_ofNumber n : allDigits (JsArray.ofNumber n) = true.
Proof.
  unfold JsArray.ofNumber. induction (N.to_uint n); simpl; auto.
Qed.

Lemma allDigits_zeros k : allDigits (JsArray.repeat "0" k) = true.
Proof. induction k; simpl; auto. Qed.

(** A minted id, put in brackets, is a well-formed tag. *)
Lemma mintTermId_wellFormed n : wellFormedTag ("[ID:" +:+ mintTermId n +:+ "]").
Proof.
  exists (JsArray.padStart 3 "0" (JsArray.ofNumber n)). split; [|split].
  - unfold JsArray.padStart.
    destruct (JsArray.ofNumber n) as [|c1 [|c2 [|c3 s]]]; discriminate.
  - unfold JsArray.padStart.
    now rewrite allDigits_append, allDigits_zeros, allDigits_ofNumber.
  - reflexivity.
Qed.

(** *** The compiled term map *)

Lemma mapSet_keys key value m x :
  x ∈ map fst (mapSet key value m) ↔ x = key ∨ x ∈ map fst m.
Proof.
  induction m as [|[k v] m IH]; simpl.
  - rewrite elem_of_cons, elem_of_nil. tauto.
  - destruct (String.eqb k key) eqn:Hk; simpl.
    + apply String.eqb_eq in Hk. subst k. rewrite !elem_of_cons. tauto.
    + rewrite !elem_of_cons, IH. tauto.
Qed.

Lemma mapSet_keys_NoDup key value m :
  NoDup (map fst m) → NoDup (map fst (mapSet key value m)).
Proof.
  induction m as [|[k v] m IH]; simpl; intros Hnd.
  - apply NoDup_singleton.
  - apply NoDup_cons in Hnd as [Hk Hnd].
    destruct (String.eqb k key) eqn:Heq; simpl.
    + now apply NoDup_cons.
    + apply NoDup_cons. split; [|now apply IH].
      rewrite mapSet_keys. intros [-> | Hin]; [|contradiction].
      now rewrite String.eqb_refl in Heq.
Qed.

(** Setting a key to a freshly tagged line keeps the values tagged
    lines with pairwise distinct counters. *)
Lemma mapSet_entries key e : ∀ m entries,
  map snd m = map taggedEntry entries →
  NoDup (map entryId entries) →
  entryId e ∉ map entryId entries →
  ∃ entries',
    map snd (mapSet key (taggedEntry e) m) = map taggedEntry entries'
    ∧ NoDup (map entryId entries')
    ∧ ∀ x, x ∈ entries' → x = e ∨ x ∈ entries.
Proof.
  induction m as [|[k v] m IH]; intros entries Hvals Hnd Hfresh.
  - destruct entries; [|discriminate]. exists [e]. simpl.
    split; [reflexivity|]. split; [apply NoDup_singleton|].
    intros x Hx. left. now apply list_elem_of_singleton in Hx.
  - destruct entries as [|e0 entries]; [discriminate|].
    simpl in Hvals. injection Hvals as Hv Hvals.
    simpl in Hnd, Hfresh. apply NoDup_cons in Hnd as [H0 Hnd].
    apply not_elem_of_cons in Hfresh as [Hne Hfresh].
    simpl. destruct (String.eqb k key); simpl.
    + exists (e :: entries). simpl. split; [now rewrite Hvals|].
      split; [now apply NoDup_cons|].
      intros x [-> | Hx]%elem_of_cons; [now left | right; now right].
    + destruct (IH entries Hvals Hnd Hfresh) as (entries' & Hvals' & Hnd' & Hsub).
      exists (e0 :: entries'). simpl. split; [now rewrite Hv, Hvals'|].
      split.
      * apply NoDup_cons. split; [|assumption].
        intros (x & Hid & Hx)%list_elem_of_fmap.
        destruct (Hsub x Hx) as [-> | Hin]; [congruence|].
        apply H0. rewrite Hid. now apply list_elem_of_fmap_2.
      * intros x [-> | Hx]%elem_of_cons; [right; now left|].
        destruct (Hsub x Hx) as [-> | Hin]; [now left | right; now right].
Qed.

Section CompiledGlossary.

Variable toLowerCase : string → string.
Variable trim : string → string.

Lemma compileLine_compiled fileName st line :
  compiled st → compiled (compileLine toLowerCase trim fileName st line).
Proof.
  destruct st as [m c]. intros (Hkeys & entries & Hvals & Hnd & Hlt).
  unfold compileLine.
  destruct (2 <=? length (JsArray.split "=" line))%nat;
    [|now split; [|exists entries]].
  split; [now apply mapSet_keys_NoDup|]. simpl in *.
  destruct (mapSet_entries
              (toLowerCase (trim (hd "" (JsArray.split "=" line))))
              (c, line, fileName) m entries Hvals Hnd)
    as (entries' & Hvals' & Hnd' & Hsub).
  { intros (x & Hid & Hx)%list_elem_of_fmap. specialize (Hlt x Hx).
    unfold entryId in *. simpl in *. lia. }
  exists entries'. split; [exact Hvals'|]. split; [exact Hnd'|].
  intros x Hx. destruct (Hsub x Hx) as [-> | Hin].
  - unfold entryId. simpl. lia.
  - specialize (Hlt x Hin). unfold entryId in *. lia.
Qed.

Lemma compileFiles_compiled files : compiled (compileFiles toLowerCase trim files).
Proof.
  unfold compileFiles.
  assert (Hinit : compiled ([], 1%N)).
  { split; [constructor|]. exists []. split; [reflexivity|].
    split; [constructor|]. intros x Hx. now apply elem_of_nil in Hx. }
  revert Hinit. generalize (([], 1%N) : list (string * string) * N).
  induction files as [|file files IH]; intros st Hst; [exact Hst|].
  simpl. apply IH. unfold compileFile.
  revert st Hst. induction (terms file) as [|line lines IHl]; intros st Hst;
    [exact Hst|].
  simpl. apply IHl. now apply compileLine_compiled.
Qed.

Lemma recompileGlossary_content files :
  mergedContent (recompileGlossary toLowerCase trim files)
  = JsArray.join JsArray.newline
      (map snd (fst (compileFiles toLowerCase trim files)))
  ∧ totalTerms (recompileGlossary toLowerCase trim files)
    = length (fst (compileFiles toLowerCase trim files)).
Proof.
  destruct files; [now split|]. simpl. now rewrite length_map.
Qed.

End CompiledGlossary.

Lemma split_length_charIn c s :
  (2 <=? length (JsArray.split c s))%nat = true ↔ charIn c s.
Proof.
  rewrite Nat.leb_le. induction s as [|a s IH]; simpl; [split; [lia | tauto]|].
  destruct (Ascii.eqb a c) eqn:Hac.
  - apply Ascii.eqb_eq in Hac. subst a. simpl. split; [now left|].
    intros _. destruct s; simpl; [lia|].
    destruct (Ascii.eqb _ _); [simpl; lia|].
    destruct (JsArray.split c s); simpl; lia.
  - apply Ascii.eqb_neq in Hac.
    destruct (JsArray.split c s) as [|p ps] eqn:Hs; simpl in *.
    + split; [lia|]. intros [Heq | Hin]; [contradiction|].
      apply IH in Hin. lia.
    + rewrite IH. split; [now right|].
      intros [Heq | Hin]; [contradiction | assumption].
Qed.

Lemma mapSet_elem_of key value m k v :
  (k, v) ∈ mapSet key value m → (k = key ∧ v = value) ∨ (k, v) ∈ m.
Proof.
  induction m as [|[k0 v0] m IH]; simpl.
  - intros [[= -> ->] | H]%elem_of_cons; [now left | now apply elem_of_nil in H].
  - destruct (String.eqb k0 key) eqn:Hk.
    + apply String.eqb_eq in Hk. subst k0.
      intros [[= -> ->] | H]%elem_of_cons; [now left|].
      right. now apply list_elem_of_further.
    + intros [[= -> ->] | H]%elem_of_cons; [right; apply list_elem_of_here|].
      destruct (IH H) as [Hnew | Hold]; [now left|].
      right. now apply list_elem_of_further.
Qed.

(** A run of digits ends where the closing bracket stands. *)
Lemma digits_delim_inj a : ∀ b x y,
  allDigits a = true → allDigits b = true →
  a +:+ String "]" x = b +:+ String "]" y → a = b.
Proof.
  induction a as [|c a IH]; intros [|d b] x y Ha Hb; str_simpl; intros Heq.
  - reflexivity.
  - injection Heq as <- _. simpl in Hb. discriminate.
  - injection Heq as -> _. simpl in Ha. discriminate.
  - injection Heq as -> Heq. f_equal.
    simpl in Ha, Hb. apply andb_true_iff in Ha as [_ Ha].
    apply andb_true_iff in Hb as [_ Hb]. now apply (IH b x y).
Qed.

(** The tag a line starts with determines the counter it was minted
    from. *)
Lemma tag_prefix_inj n m x y :
  "[ID:" +:+ mintTermId n +:+ "]" +:+ x = "[ID:" +:+ mintTermId m +:+ "]" +:+ y →
  n = m.
Proof.
  intros Heq. apply (String.app_inj "[ID:") in Heq.
  apply mintTermId_inj. unfold mintTermId in *.
  rewrite !append_assoc in Heq. apply (String.app_inj "TERM-") in Heq.
  f_equal. apply (digits_delim_inj _ _ x y); [| |exact Heq];
    unfold JsArray.padStart;
    now rewrite allDigits_append, allDigits_zeros, allDigits_ofNumber.
Qed.

Section GlossaryProperties.

Variable toLowerCase : string → string.
Variable trim : string → string.

Local Abbreviation recompile := (recompileGlossary toLowerCase trim).
Local Abbreviation termMapOf :=
  (fun files => fst (compileFiles toLowerCase trim files)).

(** Every value of the term map is the tagged line of a term line of a
    loaded file. *)
Lemma compileFiles_termLines (files : list LoadedFile) (k v : string) :
  (k, v) ∈ termMapOf files → ∃ n, termLineOf files n v.
Proof.
  unfold compileFiles.
  assert (Hgen : ∀ fs st,
    (∀ file, file ∈ fs → file ∈ files) →
    (∀ k v, (k, v) ∈ fst st → ∃ n, termLineOf files n v) →
    ∀ k v, (k, v) ∈ fst (fold_left (compileFile toLowerCase trim) fs st) →
           ∃ n, termLineOf files n v).
  { induction fs as [|file fs IH]; intros st Hfs Hst; simpl; [exact Hst|].
    apply IH; [intros f Hf; apply Hfs; now apply list_elem_of_further|].
    assert (Hfile : file ∈ files) by (apply Hfs; apply list_elem_of_here).
    unfold compileFile.
    assert (Hlines : ∀ line, line ∈ terms file → line ∈ terms file) by auto.
    revert st Hst Hlines. generalize (terms file) at 1 3.
    induction l as [|line lines IHl]; intros st Hst Hlines; simpl; [exact Hst|].
    apply IHl; [|intros l Hl; apply Hlines; now apply list_elem_of_further].
    destruct st as [m c]. unfold compileLine.
    destruct (2 <=? length (JsArray.split "=" line))%nat eqn:Hsep; [|exact Hst].
    simpl. intros k' v' [[_ ->] | Hold]%mapSet_elem_of; [|now apply (Hst k')].
    exists c, file, line. split; [exact Hfile|].
    split; [apply Hlines; apply list_elem_of_here|].
    split; [now apply split_length_charIn | reflexivity]. }
  apply (Hgen files); [auto|].
  intros k' v' Hin. now apply elem_of_nil in Hin.
Qed.

(** X20: what the glossary compiler writes, the hallucination guard
    accepts.  The compiled text is the values of the term map joined by
    line feeds; every value is the tagged line of a loaded term line;
    and the id of the tag a value starts with is grounded in the
    compiled text, so that the guard leaves an issue citing it as it
    is.  (An id whose line was replaced by a later line for the same
    source term is no longer in the map and is not covered.) *)
Theorem compiled_ids_pass_the_guard (files : list LoadedFile) :
  mergedContent (recompile files)
  = JsArray.join JsArray.newline (map snd (termMapOf files))
  ∧ ∀ v, v ∈ map snd (termMapOf files) →
      (∃ n, termLineOf files n v)
      ∧ ∀ n rest, v = "[ID:" +:+ mintTermId n +:+ "]" +:+ rest →
          grounded (mergedContent (recompile files)) (Some (mintTermId n))
          ∧ ∀ issue,
              glossaryTermId issue = Some (mintTermId n) →
              sanitizeIssue (validIds (mergedContent (recompile files))) issue
              = issue.
Proof.
  destruct (recompileGlossary_content toLowerCase trim files) as [Hc _].
  split; [exact Hc|]. intros v Hv. split.
  { apply list_elem_of_fmap in Hv as ([k v'] & -> & Hin).
    now apply (compileFiles_termLines files k). }
  intros n rest ->.
  assert (Hgr : grounded (mergedContent (recompile files))
                  (Some (mintTermId n))).
  { exists (mintTermId n). split; [reflexivity|].
    split; [apply mintTermId_wellFormed|]. rewrite Hc.
    apply occursIn_trans with ("[ID:" +:+ mintTermId n +:+ "]" +:+ rest);
      [|now apply join_occurs].
    exists "", rest. rewrite append_nil_l. now rewrite !append_assoc. }
  split; [exact Hgr|].
  intros issue Hid. unfold sanitizeIssue.
  destruct (String.eqb (issueCategory issue) "Terminology"); [|reflexivity].
  rewrite Hid. apply isValidTermId_grounded in Hgr. now rewrite Hgr.
Qed.

(** X21: no two lines of a compiled glossary carry the same id, also
    across files and after a later line has replaced an earlier one for
    the same source term.  The lines are the values of the term map, in
    order; each is the tagged line of a loaded term line; and two
    positions whose values start with the tag of the same counter are
    the same position. *)
Theorem compiled_ids_are_distinct (files : list LoadedFile) :
  mergedContent (recompile files)
  = JsArray.join JsArray.newline (map snd (termMapOf files))
  ∧ (∀ v, v ∈ map snd (termMapOf files) → ∃ n, termLineOf files n v)
  ∧ ∀ (i j : nat) n rest rest',
      map snd (termMapOf files) !! i
      = Some ("[ID:" +:+ mintTermId n +:+ "]" +:+ rest) →
      map snd (termMapOf files) !! j
      = Some ("[ID:" +:+ mintTermId n +:+ "]" +:+ rest') →
      i = j.
Proof.
  destruct (recompileGlossary_content toLowerCase trim files) as [Hc _].
  split; [exact Hc|]. split.
  { intros v ([k v'] & -> & Hin)%list_elem_of_fmap.
    now apply (compileFiles_termLines files k). }
  destruct (compileFiles_compiled toLowerCase trim files)
    as (_ & entries & Hvals & Hnd & _).
  intros i j n rest rest'. rewrite Hvals, !list_lookup_fmap.
  destruct (entries !! i) as [ei|] eqn:Hi; [|discriminate].
  destruct (entries !! j) as [ej|] eqn:Hj; [|discriminate].
  simpl. intros Hei%(inj Some) Hej%(inj Some).
  assert (Hid : ∀ e r,
            taggedEntry e = "[ID:" +:+ mintTermId n +:+ "]" +:+ r →
            entryId e = n).
  { intros e r He. unfold taggedEntry, taggedLine in He.
    apply (tag_prefix_inj _ _
             (" " +:+ snd (fst e) +:+ " [source: " +:+ snd e +:+ "]") r).
    rewrite <- He. reflexivity. }
  apply Hid in Hei, Hej.
  apply (NoDup_lookup (map entryId entries) i j n Hnd);
    rewrite list_lookup_fmap; [rewrite Hi | rewrite Hj]; simpl; congruence.
Qed.

Lemma compileLine_keys fileName st line key :
  key ∈ map fst (fst (compileLine toLowerCase trim fileName st line))
  ↔ key ∈ map fst (fst st)
    ∨ (charIn "=" line
       ∧ key = toLowerCase (trim (hd "" (JsArray.split "=" line)))).
Proof.
  destruct st as [m c]. unfold compileLine.
  destruct (2 <=? length (JsArray.split "=" line))%nat eqn:Hsep; simpl.
  - apply split_length_charIn in Hsep. rewrite mapSet_keys. tauto.
  - split; [tauto|]. intros [H | [Hc _]]; [assumption|].
    apply split_length_charIn in Hc. congruence.
Qed.

Lemma compileFile_keys file st key :
  key ∈ map fst (fst (compileFile toLowerCase trim st file))
  ↔ key ∈ map fst (fst st)
    ∨ ∃ line, line ∈ terms file ∧ charIn "=" line
        ∧ key = toLowerCase (trim (hd "" (JsArray.split "=" line))).
Proof.
  unfold compileFile. revert st.
  induction (terms file) as [|line lines IH]; intros st; simpl.
  - split; [tauto|]. intros [H | (l & Hl & _)]; [assumption|].
    now apply elem_of_nil in Hl.
  - rewrite IH, compileLine_keys. split.
    + intros [[H | [Hc ->]] | (l & Hl & Hc & ->)].
      * now left.
      * right. exists line. split; [apply list_elem_of_here | now split].
      * right. exists l. split; [now apply list_elem_of_further | now split].
    + intros [H | (l & [-> | Hl]%elem_of_cons & Hc & ->)].
      * left. now left.
      * left. right. now split.
      * right. exists l. now split.
Qed.

(** X22: the compiled glossary holds exactly one line per source term,
    where a source term is the trimmed, lower-cased text before the
    first "=" of a line that contains one; lines without "=" add
    nothing, and the reported count is the number of those terms. *)
Theorem compiled_glossary_one_line_per_term (files : list LoadedFile) :
  NoDup (map fst (termMapOf files))
  ∧ totalTerms (recompile files) = length (map fst (termMapOf files))
  ∧ ∀ key,
      key ∈ map fst (termMapOf files)
      ↔ ∃ file line, file ∈ files ∧ line ∈ terms file ∧ charIn "=" line
          ∧ key = toLowerCase (trim (hd "" (JsArray.split "=" line))).
Proof.
  split; [apply (compileFiles_compiled toLowerCase trim files)|].
  split.
  { rewrite length_map. apply recompileGlossary_content. }
  intros key. unfold compileFiles.
  assert (Hgen : ∀ st,
    key ∈ map fst (fst (fold_left (compileFile toLowerCase trim) files st))
    ↔ key ∈ map fst (fst st)
      ∨ ∃ file line, file ∈ files ∧ line ∈ terms file ∧ charIn "=" line
          ∧ key = toLowerCase (trim (hd "" (JsArray.split "=" line)))).
  { induction files as [|file fs IH]; intros st; simpl.
    - split; [tauto|]. intros [H | (f & l & Hf & _)]; [assumption|].
      now apply elem_of_nil in Hf.
    - rewrite IH, compileFile_keys. split.
      + intros [[H | (l & Hl & Hc & ->)] | (f & l & Hf & Hl & Hc & ->)].
        * now left.
        * right. exists file, l. split; [apply list_elem_of_here | auto].
        * right. exists f, l. split; [now apply list_elem_of_further | auto].
      + intros [H | (f & l & [-> | Hf]%elem_of_cons & Hl & Hc & ->)].
        * left. now left.
        * left. right. exists l. auto.
        * right. exists f, l. auto. }
  rewrite Hgen. simpl. rewrite elem_of_nil. tauto.
Qed.

(** X23: when no loaded line contains "=", the compiled glossary is the
    empty text, and with it the hallucination guard is switched off:
    the report comes back unchanged. *)
Theorem glossary_without_terms_disables_guard (files : list LoadedFile)
    (report : ScreenshotReport) :
  (∀ file line, file ∈ files → line ∈ terms file → ¬ charIn "=" line) →
  mergedContent (recompile files) = ""
  ∧ sanitizeReport report (Some (mergedContent (recompile files))) = report.
Proof.
  intros Hno.
  assert (Hkeys : ∀ key, key ∉ map fst (termMapOf files)).
  { intros key Hin.
    assert (Hgen : ∀ fs st,
      (∀ file line, file ∈ fs → line ∈ terms file → ¬ charIn "=" line) →
      key ∈ map fst (fst (fold_left (compileFile toLowerCase trim) fs st)) →
      key ∈ map fst (fst st)).
    { induction fs as [|file fs IH]; intros st Hfs; simpl; [tauto|].
      intros Hk. apply IH in Hk.
      - apply compileFile_keys in Hk as [Hk | (l & Hl & Hc & _)]; [assumption|].
        exfalso. apply (Hfs file l); [apply list_elem_of_here | assumption..].
      - intros f l Hf. apply Hfs. now apply list_elem_of_further. }
    apply (Hgen files _ Hno) in Hin. now apply elem_of_nil in Hin. }
  assert (Hempty : termMapOf files = []).
  { destruct (termMapOf files) as [|[k v] m]; [reflexivity|].
    exfalso. apply (Hkeys k). apply list_elem_of_here. }
  destruct (recompileGlossary_content toLowerCase trim files) as [Hc _].
  rewrite Hc, Hempty. now split.
Qed.

End GlossaryProperties.

Section GlossaryLanguage.

Variable toLowerCase : string → string.
Variable trim : string → string.

Lemma fileLangs_spec (files : list LoadedFile) (lang : string) :
  lang ∈ fileLangs toLowerCase files
  ↔ ∃ file, file ∈ files
      ∧ detectLanguageFromFile toLowerCase (file_name file) = Some lang.
Proof.
  unfold fileLangs.
  assert (Hgen : ∀ langs : gset string,
    lang ∈ fold_left
             (fun langs file =>
                match detectLanguageFromFile toLowerCase (file_name file) with
                | Some detected => {[detected]} ∪ langs
                | None => langs
                end) files langs
    ↔ lang ∈ langs
      ∨ ∃ file, file ∈ files
          ∧ detectLanguageFromFile toLowerCase (file_name file) = Some lang).
  { induction files as [|f fs IH]; intros langs; simpl.
    - split; [tauto|]. intros [H | (x & Hx & _)]; [assumption|].
      now apply elem_of_nil in Hx.
    - rewrite IH. split.
      + intros [H | (x & Hx & Hd)].
        * destruct (detectLanguageFromFile toLowerCase (file_name f)) as [d|] eqn:Hd;
            [|now left].
          apply elem_of_union in H as [->%elem_of_singleton | H]; [|now left].
          right. exists f. split; [apply list_elem_of_here | assumption].
        * right. exists x. split; [now apply list_elem_of_further | assumption].
      + intros [H | (x & [-> | Hx]%elem_of_cons & Hd)].
        * left. destruct (detectLanguageFromFile toLowerCase (file_name f));
            [apply elem_of_union; now right | assumption].
        * left. rewrite Hd. apply elem_of_union. left.
          now apply elem_of_singleton.
        * right. eauto. }
  rewrite Hgen. split; [|now right].
  intros [H | H]; [now apply elem_of_empty in H | exact H].
Qed.

(** X24: the compiler reports German exactly when some loaded file is
    detected as German and none as French, French in the mirrored case,
    and no language exactly in the remaining cases: when no file is
    detected as German or French (no files at all included), or when
    files of both languages are loaded. *)
Theorem recompileGlossary_language (files : list LoadedFile) :
  let isLang lang file :=
    detectLanguageFromFile toLowerCase (file_name file) = Some lang in
  (langDetected (recompileGlossary toLowerCase trim files) = Some "de-DE"
   ↔ (∃ file, file ∈ files ∧ isLang "de-DE" file)
     ∧ ¬ ∃ file, file ∈ files ∧ isLang "fr-FR" file)
  ∧ (langDetected (recompileGlossary toLowerCase trim files) = Some "fr-FR"
     ↔ (∃ file, file ∈ files ∧ isLang "fr-FR" file)
       ∧ ¬ ∃ file, file ∈ files ∧ isLang "de-DE" file)
  ∧ (langDetected (recompileGlossary toLowerCase trim files) = None
     ↔ ((¬ ∃ file, file ∈ files ∧ isLang "de-DE" file)
        ∧ ¬ ∃ file, file ∈ files ∧ isLang "fr-FR" file)
       ∨ ((∃ file, file ∈ files ∧ isLang "de-DE" file)
          ∧ ∃ file, file ∈ files ∧ isLang "fr-FR" file)).
Proof.
  intros isLang. subst isLang. simpl.
  rewrite <- !fileLangs_spec.
  destruct files as [|f fs].
  - simpl. unfold fileLangs. simpl. rewrite !elem_of_empty.
    repeat split; try discriminate; tauto.
  - simpl. set (langs := fileLangs toLowerCase (f :: fs)).
    destruct (bool_decide ("de-DE" ∈ langs)) eqn:Hde,
      (bool_decide ("fr-FR" ∈ langs)) eqn:Hfr; simpl;
      try apply bool_decide_eq_true in Hde;
      try apply bool_decide_eq_false in Hde;
      try apply bool_decide_eq_true in Hfr;
      try apply bool_decide_eq_false in Hfr;
      repeat split; try discriminate; tauto.
Qed.

End GlossaryLanguage.

Lemma glossary_without_terms_disables_guard_witness :
  sanitizeReport ungroundedReport
    (Some (mergedContent
             (recompileGlossary asciiLower noTrim
                [mkFile "c3" "notes.xlsx" 1 ["no separator here"]])))
  = ungroundedReport.
Proof.
  apply (glossary_without_terms_disables_guard asciiLower noTrim
           [mkFile "c3" "notes.xlsx" 1 ["no separator here"]] ungroundedReport).
  intros file line Hf Hl.
  apply list_elem_of_singleton in Hf. subst file.
  apply list_elem_of_singleton in Hl. subst line.
  simpl. intros H.
  repeat (destruct H as [H | H]; [discriminate H|]). exact H.
Defined.

(** *** Skill retrieval and the prompt block *)

Lemma slice0_all {A} (n : Z) (l : list A) :
  (Z.of_nat (length l) ≤ n)%Z → JsArray.slice0 n l = l.
Proof.
  intros Hn. unfold JsArray.slice0.
  destruct (n <? 0)%Z eqn:Hneg; [apply Z.ltb_lt in Hneg; lia|].
  apply firstn_all2. lia.
Qed.

Lemma sceneSkillsOf_length scene : (length (sceneSkillsOf scene) ≤ 3)%nat.
Proof. destruct scene; vm_compute; lia. Qed.

Lemma endsWith_refl b : Js.endsWith b b = true.
Proof. destruct b; cbn [Js.endsWith]; now rewrite String.eqb_refl. Qed.

Lemma endsWith_cons c a b :
  Js.endsWith a b = true → Js.endsWith (String c a) b = true.
Proof. intros H. cbn [Js.endsWith]. rewrite H. apply orb_true_r. Qed.

Lemma endsWith_append a b : Js.endsWith (a +:+ b) b = true.
Proof.
  induction a as [|c a IH]; str_simpl; [apply endsWith_refl|].
  now apply endsWith_cons.
Qed.

Lemma join_last sep (l : list string) x :
  Js.endsWith (JsArray.join sep (l ++ [x])) x = true.
Proof.
  induction l as [|y l IH]; simpl.
  - apply endsWith_refl.
  - destruct (l ++ [x]) as [|z rest] eqn:Hl; [now destruct l|].
    revert IH. generalize (JsArray.join sep (z :: rest)). intros j Hj.
    clear -Hj. rewrite <- append_assoc.
    generalize (y +:+ sep). intros a.
    induction a as [|c a IH]; str_simpl; [exact Hj|].
    now apply endsWith_cons.
Qed.

Section SkillBankProperties.

Variable toLowerCase : string → string.

Local Abbreviation retrieve := (retrieveSkills toLowerCase).

Lemma retrieveSkills_fields sceneHint targetLang :
  generalSkills (retrieve sceneHint targetLang)
  = List.filter (languageApplies targetLang) GENERAL_SKILLS
  ∧ sceneSkills (retrieve sceneHint targetLang)
    = sceneSkillsOf (detectSceneType toLowerCase sceneHint)
  ∧ sceneType (retrieve sceneHint targetLang)
    = detectSceneType toLowerCase sceneHint.
Proof. repeat split. Qed.

(** X25: the general skills retrieved are the registered ones in
    registry order; [compound_word_detection] is among them exactly
    when the target language is [de-DE], and every other registered
    general skill is among them for every language. *)
Theorem retrieveSkills_language_gate (sceneHint targetLang : string) :
  sublist (generalSkills (retrieve sceneHint targetLang)) GENERAL_SKILLS
  ∧ ("compound_word_detection"
       ∈ map skill_name (generalSkills (retrieve sceneHint targetLang))
     ↔ targetLang = "de-DE")
  ∧ ∀ skill, skill ∈ GENERAL_SKILLS →
      skill_name skill ≠ "compound_word_detection" →
      skill ∈ generalSkills (retrieve sceneHint targetLang).
Proof.
  destruct (retrieveSkills_fields sceneHint targetLang) as (-> & _ & _).
  split; [|split].
  - generalize GENERAL_SKILLS. intros l.
    induction l as [|s l IH]; simpl; [constructor|].
    destruct (languageApplies targetLang s); now constructor.
  - rewrite list_elem_of_fmap. split.
    + intros (skill & Hname & Hin).
      apply list_elem_of_In, filter_In in Hin as [_ Happ].
      unfold languageApplies in Happ. rewrite <- Hname in Happ. simpl in Happ.
      destruct (String.eqb targetLang "de-DE") eqn:Hde; [|discriminate].
      now apply String.eqb_eq.
    + intros ->. exists (nth 1 GENERAL_SKILLS (mkSkill "" "" "" None)).
      split; [reflexivity|]. apply list_elem_of_In, filter_In.
      split; [|reflexivity]. right. left. reflexivity.
  - intros skill Hin Hname. apply list_elem_of_In, filter_In.
    split; [now apply list_elem_of_In|].
    unfold languageApplies.
    destruct (String.eqb (skill_name skill) "compound_word_detection") eqn:Hn;
      [|reflexivity].
    now apply String.eqb_eq in Hn.
Qed.

(** X26: when no keyword of any scene occurs in the lower-cased hint,
    the scene is [generic], no scene skill is retrieved, and the prompt
    block consists of the three heading lines, the general skills and
    the two closing lines: it has no scene section. *)
Theorem retrieveSkills_without_keywords (sceneHint targetLang : string)
    (maxSkills : Z) :
  (∀ scene keywords, (scene, keywords) ∈ SCENE_KEYWORDS → scene ≠ generic →
     keywordHits (toLowerCase sceneHint) keywords = 0%nat) →
  sceneType (retrieve sceneHint targetLang) = generic
  ∧ sceneSkills (retrieve sceneHint targetLang) = []
  ∧ skillPromptLines (retrieve sceneHint targetLang) maxSkills
    = ["=== RETRIEVED LQA SKILLS (Apply these during analysis) ===";
       ""; "## General Principles:"]
      ++ flat_map skillLines (generalSkills (retrieve sceneHint targetLang))
      ++ [""; "=== END SKILLS ==="].
Proof.
  intros Hzero.
  assert (Hgen : detectSceneType toLowerCase sceneHint = generic).
  { unfold detectSceneType.
    destruct (sceneLoop_spec (toLowerCase sceneHint) SCENE_KEYWORDS generic 0%nat)
      as [[Hkeep _] | (earlier & w & kw & later & Heq & _ & Hw & Hlt & _)].
    - now rewrite Hkeep.
    - exfalso.
      assert (Hin : (w, kw) ∈ SCENE_KEYWORDS).
      { rewrite Heq. apply elem_of_app. right. apply list_elem_of_here. }
      specialize (Hzero w kw Hin Hw). lia. }
  destruct (retrieveSkills_fields sceneHint targetLang) as (_ & Hs & Ht).
  unfold skillPromptLines. rewrite Ht, Hs, Hgen.
  split; [reflexivity|]. split; reflexivity.
Qed.

(** X27: no registered scene has more than three skills, so the default
    budget of five never cuts a retrieved scene skill, and any budget of
    at least three yields the same prompt block as the default. *)
Theorem formatSkillsForPrompt_default_budget (sceneHint targetLang : string)
    (maxSkills : Z) :
  (3 ≤ maxSkills)%Z →
  JsArray.slice0 defaultMaxSkills (sceneSkills (retrieve sceneHint targetLang))
  = sceneSkills (retrieve sceneHint targetLang)
  ∧ formatSkillsForPrompt (retrieve sceneHint targetLang) maxSkills
    = formatSkillsForPrompt (retrieve sceneHint targetLang) defaultMaxSkills.
Proof.
  intros Hmax.
  destruct (retrieveSkills_fields sceneHint targetLang) as (_ & Hs & _).
  pose proof (sceneSkillsOf_length (detectSceneType toLowerCase sceneHint)) as Hlen.
  rewrite <- Hs in Hlen.
  assert (Hd : JsArray.slice0 defaultMaxSkills
                 (sceneSkills (retrieve sceneHint targetLang))
               = sceneSkills (retrieve sceneHint targetLang)).
  { apply slice0_all. unfold defaultMaxSkills. lia. }
  split; [exact Hd|].
  unfold formatSkillsForPrompt, skillPromptLines.
  rewrite Hd, slice0_all by lia. reflexivity.
Qed.

End SkillBankProperties.

(** X28: whatever the skills and the budget, the prompt block starts
    with the heading line and ends with the closing line, and it holds
    the bullet (name and principle) of every general skill and of every
    scene skill within the budget. *)
Theorem formatSkillsForPrompt_renders (skills : RetrievedSkills)
    (maxSkills : Z) :
  Js.startsWith (formatSkillsForPrompt skills maxSkills)
    "=== RETRIEVED LQA SKILLS (Apply these during analysis) ===" = true
  ∧ Js.endsWith (formatSkillsForPrompt skills maxSkills)
      "=== END SKILLS ===" = true
  ∧ ∀ skill,
      skill ∈ generalSkills skills
      ∨ skill ∈ JsArray.slice0 maxSkills (sceneSkills skills) →
      occursIn ("  • [" +:+ skill_name skill +:+ "]: " +:+ principle skill)
        (formatSkillsForPrompt skills maxSkills).
Proof.
  unfold formatSkillsForPrompt. split; [|split].
  - unfold skillPromptLines. simpl.
    apply dropPrefix_startsWith. eexists. reflexivity.
  - unfold skillPromptLines. rewrite !app_assoc.
    change [""; "=== END SKILLS ==="] with ([""] ++ ["=== END SKILLS ==="]).
    rewrite app_assoc. apply join_last.
  - intros skill Hin. apply join_occurs. unfold skillPromptLines.
    assert (Hline : ∀ l, skill ∈ l →
              ("  • [" +:+ skill_name skill +:+ "]: " +:+ principle skill)
              ∈ flat_map skillLines l).
    { intros l Hl. apply list_elem_of_In, in_flat_map. exists skill.
      split; [now apply list_elem_of_In | now left]. }
    destruct Hin as [Hg | Hs].
    + apply elem_of_app. right. apply elem_of_app. left. now apply Hline.
    + apply elem_of_app. right. apply elem_of_app. right.
      apply elem_of_app. left.
      destruct (sceneSkills skills) as [|s ss] eqn:Hss.
      * unfold JsArray.slice0 in Hs.
        destruct (maxSkills <? 0)%Z; rewrite firstn_nil in Hs;
          now apply elem_of_nil in Hs.
      * simpl. right. right. now apply Hline.
Qed.

(** *** The further properties on sample inputs *)

Lemma processImageUrl_mime_allowed_witness :
  mimeType (mkImage "image/png" "iVBOR") ∈ allowedTypes
  ∧ ∃ mime,
      fetchDataUrl octetEnv [] "https://cdn.example/Shot.PNG"
      = Some (mime, data (mkImage "image/png" "iVBOR"))
      ∧ (mime ∈ allowedTypes → mimeType (mkImage "image/png" "iVBOR") = mime)
      ∧ (mime ∉ allowedTypes →
         mimeType (mkImage "image/png" "iVBOR")
         = if Js.endsWith (asciiLower "https://cdn.example/Shot.PNG") ".png"
           then "image/png" else "image/jpeg").
Proof.
  apply (processImageUrl_mime_allowed asciiLower octetEnv
           "https://cdn.example/Shot.PNG" [] (mkImage "image/png" "iVBOR")
           [EvFetch "https://cdn.example/Shot.PNG"]).
  vm_compute. reflexivity.
Defined.

Lemma runAnalysis_fetch_failure_witness :
  runAnalysis asciiLower sampleEnforce sampleDetermine
    llmService_LLM_FALLBACK_MODEL_ID offlineEnv samplePayload LLM_MODEL_ID []
  = (inl FetchFailed, [EvFetch "blob:en"; EvFetch "blob:de"]).
Proof.
  apply (runAnalysis_fetch_failure asciiLower sampleEnforce sampleDetermine
           llmService_LLM_FALLBACK_MODEL_ID offlineEnv samplePayload
           LLM_MODEL_ID []).
  left. reflexivity.
Defined.

Lemma runAnalysis_without_issues_skips_verifier_witness :
  runAnalysis asciiLower sampleEnforce sampleDetermine
    llmService_LLM_FALLBACK_MODEL_ID (constantEnv (labelledParsed "Average"))
    samplePayload LLM_MODEL_ID []
  = (inr (labelledReport "Good"), failedAttempt).
Proof.
  apply (runAnalysis_without_issues_skips_verifier asciiLower sampleEnforce
           sampleDetermine llmService_LLM_FALLBACK_MODEL_ID
           (constantEnv (labelledParsed "Average")) samplePayload LLM_MODEL_ID []
           (labelledParsed "Average") "image/png" "iVBOR" "image/png" "iVBOR").
  - reflexivity.
  - reflexivity.
  - reflexivity.
  - right. reflexivity.
Defined.

Lemma serverVerifyIssues_failure_returns_input_witness :
  serverVerifyIssues asciiLower rejectingEnv ungroundedReport []
  = (inr ungroundedReport, [EvGenerate Verification serverModel]).
Proof.
  apply (serverVerifyIssues_failure_returns_input asciiLower rejectingEnv
           ungroundedReport []).
  left. exists (BackendError "503"). reflexivity.
Defined.

Lemma returned_report_has_request_id_witness :
  screenshotId groundedClientReport = payload_screenshotId glossaryPayload.
Proof.
  apply (proj1 (returned_report_has_request_id asciiLower sampleEnforce
                  sampleDetermine llmService_LLM_FALLBACK_MODEL_ID
                  (constantEnv groundedParsed) (Some "key") glossaryPayload)
           [] groundedClientReport
           (failedAttempt ++ [EvGenerate Verification LLM_MODEL_ID])).
  vm_compute. reflexivity.
Defined.

Lemma returned_terminology_is_grounded_witness :
  grounded sampleGlossary (glossaryTermId groundedIssue).
Proof.
  apply (proj1 (returned_terminology_is_grounded asciiLower sampleEnforce
                  sampleDetermine llmService_LLM_FALLBACK_MODEL_ID
                  (constantEnv groundedParsed) (Some "key") glossaryPayload
                  sampleGlossary groundedIssue eq_refl
                  ltac:(discriminate) eq_refl)
           [] groundedClientReport
           (failedAttempt ++ [EvGenerate Verification LLM_MODEL_ID])).
  - vm_compute. reflexivity.
  - apply list_elem_of_here.
Defined.

Lemma analyzeScreenshot_errors_are_wrapped_witness :
  ∃ cause, HttpsError (BackendError "503") = HttpsError cause.
Proof.
  apply (analyzeScreenshot_errors_are_wrapped asciiLower rejectingEnv
           (Some "key") samplePayload []
           (HttpsError (BackendError "503"))
           [EvGenerate Analysis serverModel; EvSleep 1000%N;
            EvGenerate Analysis serverModel; EvSleep 2000%N;
            EvGenerate Analysis serverModel]).
  vm_compute. reflexivity.
Defined.

Lemma retrieveSkills_without_keywords_witness :
  sceneType (retrieveSkills asciiLower "release notes" "fr-FR") = generic
  ∧ sceneSkills (retrieveSkills asciiLower "release notes" "fr-FR") = []
  ∧ skillPromptLines (retrieveSkills asciiLower "release notes" "fr-FR") 5
    = ["=== RETRIEVED LQA SKILLS (Apply these during analysis) ===";
       ""; "## General Principles:"]
      ++ flat_map skillLines
           (generalSkills (retrieveSkills asciiLower "release notes" "fr-FR"))
      ++ [""; "=== END SKILLS ==="].
Proof.
  apply (retrieveSkills_without_keywords asciiLower "release notes" "fr-FR" 5).
  intros scene keywords Hin Hs.
  repeat (apply elem_of_cons in Hin as [[= -> ->] | Hin];
          [first [reflexivity | contradiction] |]).
  now apply elem_of_nil in Hin.
Defined.

Lemma formatSkillsForPrompt_default_budget_witness :
  JsArray.slice0 defaultMaxSkills
    (sceneSkills (retrieveSkills asciiLower "login form" "de-DE"))
  = sceneSkills (retrieveSkills asciiLower "login form" "de-DE")
  ∧ formatSkillsForPrompt (retrieveSkills asciiLower "login form" "de-DE") 3
    = formatSkillsForPrompt (retrieveSkills asciiLower "login form" "de-DE")
        defaultMaxSkills.
Proof.
  apply (formatSkillsForPrompt_default_budget asciiLower "login form" "de-DE" 3).
  lia.
Defined.

(** The settings scenario: the two registered settings skills, and the
    six general skills that apply to French. *)
Example retrieveSkills_settings :
  map skill_name
    (sceneSkills (retrieveSkills asciiLower "settings page with toggle switches"
                    "fr-FR"))
  = ["settings_toggle_labels"; "settings_section_headers"]
  ∧ length (generalSkills
              (retrieveSkills asciiLower "settings page with toggle switches"
                 "fr-FR")) = 6%nat.
Proof. split; vm_compute; reflexivity. Qed.

(** Three examples are registered, two are printed. *)
Example skillLines_two_examples :
  skillLines (nth 0 GENERAL_SKILLS (mkSkill "" "" "" None))
  = ["  • [text_expansion_guard]: German text is typically 30-40% longer than English; French is 15-20% longer. Prioritize checking short UI elements (buttons, tabs, labels, menu items) for truncation.";
     "    Examples: 'Settings' → 'Einstellungen' (+60%) | 'Submit' → 'Soumettre' (+40%)"].
Proof. vm_compute. reflexivity. Qed.
